(** * EMSO and Stevilka extraction: a shallow embedding of [main.py]

    The development follows the Python module function by function.
    Python text is a sequence of Unicode code points; the [re] and [str]
    primitives the module calls are embedded first, the module's own
    functions after them, and the properties of the extraction core last. *)

From Stdlib Require Import List ZArith NArith Bool Arith Lia String Ascii.
Import ListNotations.

Local Open Scope Z_scope.

(** ** Python values, text and exceptions *)

Module Py.

(** A character is a Unicode code point, a [str] a sequence of them. *)
Definition char := N.
Definition str := list char.

(** ASCII literals of the source, as code points. *)
Fixpoint lit (s : string) : str :=
  match s with
  | EmptyString => []
  | String a s' => N_of_ascii a :: lit s'
  end.

Inductive exn := ValueError | IndexError.

Inductive result (A : Type) : Type :=
| Ok (a : A)
| Raise (e : exn).
Arguments Ok {A} a.
Arguments Raise {A} e.

Definition bind {A B} (m : result A) (k : A -> result B) : result B :=
  match m with
  | Ok a => k a
  | Raise e => Raise e
  end.

Notation "x <- m ;; k" := (bind m (fun x => k))
  (at level 61, m at next level, right associativity).
Notation "' pat <- m ;; k" := (bind m (fun x => match x with pat => k end))
  (at level 61, pat pattern, m at next level, right associativity).

(** A list comprehension whose element expression may raise: elements are
    evaluated left to right and the first exception escapes. *)
Fixpoint comprehension {A B} (f : A -> result B) (xs : list A)
  : result (list B) :=
  match xs with
  | [] => Ok []
  | x :: xs' => y <- f x ;; ys <- comprehension f xs' ;; Ok (y :: ys)
  end.

(** The dynamically typed values the module passes around. *)
Inductive value :=
| VNone
| VBool (b : bool)
| VStr (s : str).

(** [a, b = t]: unpacking a tuple of any other length raises. *)
Definition unpack2 (t : list value) : result (value * value) :=
  match t with
  | [a; b] => Ok (a, b)
  | _ => Raise ValueError
  end.

(** [xs[i]] for a non-negative index. *)
Definition getitem {A} (xs : list A) (i : nat) : result A :=
  match nth_error xs i with
  | Some x => Ok x
  | None => Raise IndexError
  end.

Definition sum (xs : list Z) : Z := fold_left Z.add xs 0.

(** *** The Unicode character database

    The tables are those of Unicode 14.0.0, the version behind CPython
    3.11's [unicodedata]; each lists the inclusive code point ranges that
    carry one flag of CPython's type records. *)

Fixpoint range_offset (t : list (N * N)) (c : char) : option N :=
  match t with
  | [] => None
  | (lo, hi) :: t' =>
      if ((lo <=? c) && (c <=? hi))%N then Some (c - lo)%N
      else range_offset t' c
  end.

Definition in_ranges (t : list (N * N)) (c : char) : bool :=
  match range_offset t c with
  | Some _ => true
  | None => false
  end.

(** Code points carrying the DECIMAL flag (general category Nd).  Every
    range starts at a digit zero and holds whole decades. *)
Definition decimal_ranges : list (N * N) :=
  [(48, 57); (1632, 1641); (1776, 1785); (1984, 1993); (2406, 2415);
   (2534, 2543); (2662, 2671); (2790, 2799); (2918, 2927); (3046, 3055);
   (3174, 3183); (3302, 3311); (3430, 3439); (3558, 3567); (3664, 3673);
   (3792, 3801); (3872, 3881); (4160, 4169); (4240, 4249); (6112, 6121);
   (6160, 6169); (6470, 6479); (6608, 6617); (6784, 6793); (6800, 6809);
   (6992, 7001); (7088, 7097); (7232, 7241); (7248, 7257); (42528, 42537);
   (43216, 43225); (43264, 43273); (43472, 43481); (43504, 43513);
   (43600, 43609); (44016, 44025); (65296, 65305); (66720, 66729);
   (68912, 68921); (69734, 69743); (69872, 69881); (69942, 69951);
   (70096, 70105); (70384, 70393); (70736, 70745); (70864, 70873);
   (71248, 71257); (71360, 71369); (71472, 71481); (71904, 71913);
   (72016, 72025); (72784, 72793); (73040, 73049); (73120, 73129);
   (92768, 92777); (92864, 92873); (93008, 93017); (120782, 120831);
   (123200, 123209); (123632, 123641); (125264, 125273); (130032, 130041)]%N.

(** Code points carrying the DIGIT flag. *)
Definition digit_ranges : list (N * N) :=
  [(48, 57); (178, 179); (185, 185); (1632, 1641); (1776, 1785);
   (1984, 1993); (2406, 2415); (2534, 2543); (2662, 2671); (2790, 2799);
   (2918, 2927); (3046, 3055); (3174, 3183); (3302, 3311); (3430, 3439);
   (3558, 3567); (3664, 3673); (3792, 3801); (3872, 3881); (4160, 4169);
   (4240, 4249); (4969, 4977); (6112, 6121); (6160, 6169); (6470, 6479);
   (6608, 6618); (6784, 6793); (6800, 6809); (6992, 7001); (7088, 7097);
   (7232, 7241); (7248, 7257); (8304, 8304); (8308, 8313); (8320, 8329);
   (9312, 9320); (9332, 9340); (9352, 9360); (9450, 9450); (9461, 9469);
   (9471, 9471); (10102, 10110); (10112, 10120); (10122, 10130);
   (42528, 42537); (43216, 43225); (43264, 43273); (43472, 43481);
   (43504, 43513); (43600, 43609); (44016, 44025); (65296, 65305);
   (66720, 66729); (68160, 68163); (68912, 68921); (69216, 69224);
   (69714, 69722); (69734, 69743); (69872, 69881); (69942, 69951);
   (70096, 70105); (70384, 70393); (70736, 70745); (70864, 70873);
   (71248, 71257); (71360, 71369); (71472, 71481); (71904, 71913);
   (72016, 72025); (72784, 72793); (73040, 73049); (73120, 73129);
   (92768, 92777); (92864, 92873); (93008, 93017); (120782, 120831);
   (123200, 123209); (123632, 123641); (125264, 125273); (127232, 127242);
   (130032, 130041)]%N.

(** Code points carrying the NUMERIC flag. *)
Definition numeric_ranges : list (N * N) :=
  [(48, 57); (178, 179); (185, 185); (188, 190); (1632, 1641); (1776, 1785);
   (1984, 1993); (2406, 2415); (2534, 2543); (2548, 2553); (2662, 2671);
   (2790, 2799); (2918, 2927); (2930, 2935); (3046, 3058); (3174, 3183);
   (3192, 3198); (3302, 3311); (3416, 3422); (3430, 3448); (3558, 3567);
   (3664, 3673); (3792, 3801); (3872, 3891); (4160, 4169); (4240, 4249);
   (4969, 4988); (5870, 5872); (6112, 6121); (6128, 6137); (6160, 6169);
   (6470, 6479); (6608, 6618); (6784, 6793); (6800, 6809); (6992, 7001);
   (7088, 7097); (7232, 7241); (7248, 7257); (8304, 8304); (8308, 8313);
   (8320, 8329); (8528, 8578); (8581, 8585); (9312, 9371); (9450, 9471);
   (10102, 10131); (11517, 11517); (12295, 12295); (12321, 12329);
   (12344, 12346); (12690, 12693); (12832, 12841); (12872, 12879);
   (12881, 12895); (12928, 12937); (12977, 12991); (13317, 13317);
   (13443, 13443); (14378, 14378); (15181, 15181); (19968, 19968);
   (19971, 19971); (19975, 19975); (19977, 19977); (20061, 20061);
   (20108, 20108); (20116, 20116); (20118, 20118); (20159, 20160);
   (20191, 20191); (20200, 20200); (20237, 20237); (20336, 20336);
   (20740, 20740); (20806, 20806); (20841, 20841); (20843, 20843);
   (20845, 20845); (21313, 21313); (21315, 21317); (21324, 21324);
   (21441, 21444); (22235, 22235); (22769, 22769); (22777, 22777);
   (24186, 24186); (24318, 24319); (24332, 24334); (24336, 24336);
   (25342, 25342); (25420, 25420); (26578, 26578); (28422, 28422);
   (29590, 29590); (30334, 30334); (32902, 32902); (33836, 33836);
   (36014, 36014); (36019, 36019); (36144, 36144); (38433, 38433);
   (38470, 38470); (38476, 38476); (38520, 38520); (38646, 38646);
   (42528, 42537); (42726, 42735); (43056, 43061); (43216, 43225);
   (43264, 43273); (43472, 43481); (43504, 43513); (43600, 43609);
   (44016, 44025); (63851, 63851); (63859, 63859); (63864, 63864);
   (63922, 63922); (63953, 63953); (63955, 63955); (63997, 63997);
   (65296, 65305); (65799, 65843); (65856, 65912); (65930, 65931);
   (66273, 66299); (66336, 66339); (66369, 66369); (66378, 66378);
   (66513, 66517); (66720, 66729); (67672, 67679); (67705, 67711);
   (67751, 67759); (67835, 67839); (67862, 67867); (68028, 68029);
   (68032, 68047); (68050, 68095); (68160, 68168); (68221, 68222);
   (68253, 68255); (68331, 68335); (68440, 68447); (68472, 68479);
   (68521, 68527); (68858, 68863); (68912, 68921); (69216, 69246);
   (69405, 69414); (69457, 69460); (69573, 69579); (69714, 69743);
   (69872, 69881); (69942, 69951); (70096, 70105); (70113, 70132);
   (70384, 70393); (70736, 70745); (70864, 70873); (71248, 71257);
   (71360, 71369); (71472, 71483); (71904, 71922); (72016, 72025);
   (72784, 72812); (73040, 73049); (73120, 73129); (73664, 73684);
   (74752, 74862); (92768, 92777); (92864, 92873); (93008, 93017);
   (93019, 93025); (93824, 93846); (119520, 119539); (119648, 119672);
   (120782, 120831); (123200, 123209); (123632, 123641); (125127, 125135);
   (125264, 125273); (126065, 126123); (126125, 126127); (126129, 126132);
   (126209, 126253); (126255, 126269); (127232, 127244); (130032, 130041);
   (131073, 131073); (131172, 131172); (131298, 131298); (131361, 131361);
   (133418, 133418); (133507, 133507); (133516, 133516); (133532, 133532);
   (133866, 133866); (133885, 133885); (133913, 133913); (140176, 140176);
   (141720, 141720); (146203, 146203); (156269, 156269); (194704, 194704)]%N.

(** Code points carrying the ALPHA flag (categories Lu, Ll, Lt, Lm, Lo). *)
Definition alpha_ranges : list (N * N) :=
  [(65, 90); (97, 122); (170, 170); (181, 181); (186, 186); (192, 214);
   (216, 246); (248, 705); (710, 721); (736, 740); (748, 748); (750, 750);
   (880, 884); (886, 887); (890, 893); (895, 895); (902, 902); (904, 906);
   (908, 908); (910, 929); (931, 1013); (1015, 1153); (1162, 1327);
   (1329, 1366); (1369, 1369); (1376, 1416); (1488, 1514); (1519, 1522);
   (1568, 1610); (1646, 1647); (1649, 1747); (1749, 1749); (1765, 1766);
   (1774, 1775); (1786, 1788); (1791, 1791); (1808, 1808); (1810, 1839);
   (1869, 1957); (1969, 1969); (1994, 2026); (2036, 2037); (2042, 2042);
   (2048, 2069); (2074, 2074); (2084, 2084); (2088, 2088); (2112, 2136);
   (2144, 2154); (2160, 2183); (2185, 2190); (2208, 2249); (2308, 2361);
   (2365, 2365); (2384, 2384); (2392, 2401); (2417, 2432); (2437, 2444);
   (2447, 2448); (2451, 2472); (2474, 2480); (2482, 2482); (2486, 2489);
   (2493, 2493); (2510, 2510); (2524, 2525); (2527, 2529); (2544, 2545);
   (2556, 2556); (2565, 2570); (2575, 2576); (2579, 2600); (2602, 2608);
   (2610, 2611); (2613, 2614); (2616, 2617); (2649, 2652); (2654, 2654);
   (2674, 2676); (2693, 2701); (2703, 2705); (2707, 2728); (2730, 2736);
   (2738, 2739); (2741, 2745); (2749, 2749); (2768, 2768); (2784, 2785);
   (2809, 2809); (2821, 2828); (2831, 2832); (2835, 2856); (2858, 2864);
   (2866, 2867); (2869, 2873); (2877, 2877); (2908, 2909); (2911, 2913);
   (2929, 2929); (2947, 2947); (2949, 2954); (2958, 2960); (2962, 2965);
   (2969, 2970); (2972, 2972); (2974, 2975); (2979, 2980); (2984, 2986);
   (2990, 3001); (3024, 3024); (3077, 3084); (3086, 3088); (3090, 3112);
   (3114, 3129); (3133, 3133); (3160, 3162); (3165, 3165); (3168, 3169);
   (3200, 3200); (3205, 3212); (3214, 3216); (3218, 3240); (3242, 3251);
   (3253, 3257); (3261, 3261); (3293, 3294); (3296, 3297); (3313, 3314);
   (3332, 3340); (3342, 3344); (3346, 3386); (3389, 3389); (3406, 3406);
   (3412, 3414); (3423, 3425); (3450, 3455); (3461, 3478); (3482, 3505);
   (3507, 3515); (3517, 3517); (3520, 3526); (3585, 3632); (3634, 3635);
   (3648, 3654); (3713, 3714); (3716, 3716); (3718, 3722); (3724, 3747);
   (3749, 3749); (3751, 3760); (3762, 3763); (3773, 3773); (3776, 3780);
   (3782, 3782); (3804, 3807); (3840, 3840); (3904, 3911); (3913, 3948);
   (3976, 3980); (4096, 4138); (4159, 4159); (4176, 4181); (4186, 4189);
   (4193, 4193); (4197, 4198); (4206, 4208); (4213, 4225); (4238, 4238);
   (4256, 4293); (4295, 4295); (4301, 4301); (4304, 4346); (4348, 4680);
   (4682, 4685); (4688, 4694); (4696, 4696); (4698, 4701); (4704, 4744);
   (4746, 4749); (4752, 4784); (4786, 4789); (4792, 4798); (4800, 4800);
   (4802, 4805); (4808, 4822); (4824, 4880); (4882, 4885); (4888, 4954);
   (4992, 5007); (5024, 5109); (5112, 5117); (5121, 5740); (5743, 5759);
   (5761, 5786); (5792, 5866); (5873, 5880); (5888, 5905); (5919, 5937);
   (5952, 5969); (5984, 5996); (5998, 6000); (6016, 6067); (6103, 6103);
   (6108, 6108); (6176, 6264); (6272, 6276); (6279, 6312); (6314, 6314);
   (6320, 6389); (6400, 6430); (6480, 6509); (6512, 6516); (6528, 6571);
   (6576, 6601); (6656, 6678); (6688, 6740); (6823, 6823); (6917, 6963);
   (6981, 6988); (7043, 7072); (7086, 7087); (7098, 7141); (7168, 7203);
   (7245, 7247); (7258, 7293); (7296, 7304); (7312, 7354); (7357, 7359);
   (7401, 7404); (7406, 7411); (7413, 7414); (7418, 7418); (7424, 7615);
   (7680, 7957); (7960, 7965); (7968, 8005); (8008, 8013); (8016, 8023);
   (8025, 8025); (8027, 8027); (8029, 8029); (8031, 8061); (8064, 8116);
   (8118, 8124); (8126, 8126); (8130, 8132); (8134, 8140); (8144, 8147);
   (8150, 8155); (8160, 8172); (8178, 8180); (8182, 8188); (8305, 8305);
   (8319, 8319); (8336, 8348); (8450, 8450); (8455, 8455); (8458, 8467);
   (8469, 8469); (8473, 8477); (8484, 8484); (8486, 8486); (8488, 8488);
   (8490, 8493); (8495, 8505); (8508, 8511); (8517, 8521); (8526, 8526);
   (8579, 8580); (11264, 11492); (11499, 11502); (11506, 11507);
   (11520, 11557); (11559, 11559); (11565, 11565); (11568, 11623);
   (11631, 11631); (11648, 11670); (11680, 11686); (11688, 11694);
   (11696, 11702); (11704, 11710); (11712, 11718); (11720, 11726);
   (11728, 11734); (11736, 11742); (11823, 11823); (12293, 12294);
   (12337, 12341); (12347, 12348); (12353, 12438); (12445, 12447);
   (12449, 12538); (12540, 12543); (12549, 12591); (12593, 12686);
   (12704, 12735); (12784, 12799); (13312, 19903); (19968, 42124);
   (42192, 42237); (42240, 42508); (42512, 42527); (42538, 42539);
   (42560, 42606); (42623, 42653); (42656, 42725); (42775, 42783);
   (42786, 42888); (42891, 42954); (42960, 42961); (42963, 42963);
   (42965, 42969); (42994, 43009); (43011, 43013); (43015, 43018);
   (43020, 43042); (43072, 43123); (43138, 43187); (43250, 43255);
   (43259, 43259); (43261, 43262); (43274, 43301); (43312, 43334);
   (43360, 43388); (43396, 43442); (43471, 43471); (43488, 43492);
   (43494, 43503); (43514, 43518); (43520, 43560); (43584, 43586);
   (43588, 43595); (43616, 43638); (43642, 43642); (43646, 43695);
   (43697, 43697); (43701, 43702); (43705, 43709); (43712, 43712);
   (43714, 43714); (43739, 43741); (43744, 43754); (43762, 43764);
   (43777, 43782); (43785, 43790); (43793, 43798); (43808, 43814);
   (43816, 43822); (43824, 43866); (43868, 43881); (43888, 44002);
   (44032, 55203); (55216, 55238); (55243, 55291); (63744, 64109);
   (64112, 64217); (64256, 64262); (64275, 64279); (64285, 64285);
   (64287, 64296); (64298, 64310); (64312, 64316); (64318, 64318);
   (64320, 64321); (64323, 64324); (64326, 64433); (64467, 64829);
   (64848, 64911); (64914, 64967); (65008, 65019); (65136, 65140);
   (65142, 65276); (65313, 65338); (65345, 65370); (65382, 65470);
   (65474, 65479); (65482, 65487); (65490, 65495); (65498, 65500);
   (65536, 65547); (65549, 65574); (65576, 65594); (65596, 65597);
   (65599, 65613); (65616, 65629); (65664, 65786); (66176, 66204);
   (66208, 66256); (66304, 66335); (66349, 66368); (66370, 66377);
   (66384, 66421); (66432, 66461); (66464, 66499); (66504, 66511);
   (66560, 66717); (66736, 66771); (66776, 66811); (66816, 66855);
   (66864, 66915); (66928, 66938); (66940, 66954); (66956, 66962);
   (66964, 66965); (66967, 66977); (66979, 66993); (66995, 67001);
   (67003, 67004); (67072, 67382); (67392, 67413); (67424, 67431);
   (67456, 67461); (67463, 67504); (67506, 67514); (67584, 67589);
   (67592, 67592); (67594, 67637); (67639, 67640); (67644, 67644);
   (67647, 67669); (67680, 67702); (67712, 67742); (67808, 67826);
   (67828, 67829); (67840, 67861); (67872, 67897); (67968, 68023);
   (68030, 68031); (68096, 68096); (68112, 68115); (68117, 68119);
   (68121, 68149); (68192, 68220); (68224, 68252); (68288, 68295);
   (68297, 68324); (68352, 68405); (68416, 68437); (68448, 68466);
   (68480, 68497); (68608, 68680); (68736, 68786); (68800, 68850);
   (68864, 68899); (69248, 69289); (69296, 69297); (69376, 69404);
   (69415, 69415); (69424, 69445); (69488, 69505); (69552, 69572);
   (69600, 69622); (69635, 69687); (69745, 69746); (69749, 69749);
   (69763, 69807); (69840, 69864); (69891, 69926); (69956, 69956);
   (69959, 69959); (69968, 70002); (70006, 70006); (70019, 70066);
   (70081, 70084); (70106, 70106); (70108, 70108); (70144, 70161);
   (70163, 70187); (70272, 70278); (70280, 70280); (70282, 70285);
   (70287, 70301); (70303, 70312); (70320, 70366); (70405, 70412);
   (70415, 70416); (70419, 70440); (70442, 70448); (70450, 70451);
   (70453, 70457); (70461, 70461); (70480, 70480); (70493, 70497);
   (70656, 70708); (70727, 70730); (70751, 70753); (70784, 70831);
   (70852, 70853); (70855, 70855); (71040, 71086); (71128, 71131);
   (71168, 71215); (71236, 71236); (71296, 71338); (71352, 71352);
   (71424, 71450); (71488, 71494); (71680, 71723); (71840, 71903);
   (71935, 71942); (71945, 71945); (71948, 71955); (71957, 71958);
   (71960, 71983); (71999, 71999); (72001, 72001); (72096, 72103);
   (72106, 72144); (72161, 72161); (72163, 72163); (72192, 72192);
   (72203, 72242); (72250, 72250); (72272, 72272); (72284, 72329);
   (72349, 72349); (72368, 72440); (72704, 72712); (72714, 72750);
   (72768, 72768); (72818, 72847); (72960, 72966); (72968, 72969);
   (72971, 73008); (73030, 73030); (73056, 73061); (73063, 73064);
   (73066, 73097); (73112, 73112); (73440, 73458); (73648, 73648);
   (73728, 74649); (74880, 75075); (77712, 77808); (77824, 78894);
   (82944, 83526); (92160, 92728); (92736, 92766); (92784, 92862);
   (92880, 92909); (92928, 92975); (92992, 92995); (93027, 93047);
   (93053, 93071); (93760, 93823); (93952, 94026); (94032, 94032);
   (94099, 94111); (94176, 94177); (94179, 94179); (94208, 100343);
   (100352, 101589); (101632, 101640); (110576, 110579); (110581, 110587);
   (110589, 110590); (110592, 110882); (110928, 110930); (110948, 110951);
   (110960, 111355); (113664, 113770); (113776, 113788); (113792, 113800);
   (113808, 113817); (119808, 119892); (119894, 119964); (119966, 119967);
   (119970, 119970); (119973, 119974); (119977, 119980); (119982, 119993);
   (119995, 119995); (119997, 120003); (120005, 120069); (120071, 120074);
   (120077, 120084); (120086, 120092); (120094, 120121); (120123, 120126);
   (120128, 120132); (120134, 120134); (120138, 120144); (120146, 120485);
   (120488, 120512); (120514, 120538); (120540, 120570); (120572, 120596);
   (120598, 120628); (120630, 120654); (120656, 120686); (120688, 120712);
   (120714, 120744); (120746, 120770); (120772, 120779); (122624, 122654);
   (123136, 123180); (123191, 123197); (123214, 123214); (123536, 123565);
   (123584, 123627); (124896, 124902); (124904, 124907); (124909, 124910);
   (124912, 124926); (124928, 125124); (125184, 125251); (125259, 125259);
   (126464, 126467); (126469, 126495); (126497, 126498); (126500, 126500);
   (126503, 126503); (126505, 126514); (126516, 126519); (126521, 126521);
   (126523, 126523); (126530, 126530); (126535, 126535); (126537, 126537);
   (126539, 126539); (126541, 126543); (126545, 126546); (126548, 126548);
   (126551, 126551); (126553, 126553); (126555, 126555); (126557, 126557);
   (126559, 126559); (126561, 126562); (126564, 126564); (126567, 126570);
   (126572, 126578); (126580, 126583); (126585, 126588); (126590, 126590);
   (126592, 126601); (126603, 126619); (126625, 126627); (126629, 126633);
   (126635, 126651); (131072, 173791); (173824, 177976); (177984, 178205);
   (178208, 183969); (183984, 191456); (194560, 195101); (196608, 201546)]%N.

(** Code points for which [Py_UNICODE_ISSPACE] holds. *)
Definition space_ranges : list (N * N) :=
  [(9, 13); (28, 32); (133, 133); (160, 160); (5760, 5760); (8192, 8202);
   (8232, 8233); (8239, 8239); (8287, 8287); (12288, 12288)]%N.

(** [_PyUnicode_ToDecimalDigit]: the value of a decimal digit, or nothing
    (CPython returns -1). *)
Definition to_decimal (c : char) : option Z :=
  match range_offset decimal_ranges c with
  | Some off => Some (Z.of_N (off mod 10))
  | None => None
  end.

(** [Py_UNICODE_ISDECIMAL], which is what [\d] tests in a [str] pattern. *)
Definition isdecimal (c : char) : bool :=
  match to_decimal c with
  | Some _ => true
  | None => false
  end.

Definition isalpha (c : char) : bool := in_ranges alpha_ranges c.
Definition isdigit (c : char) : bool := in_ranges digit_ranges c.
Definition isnumeric (c : char) : bool := in_ranges numeric_ranges c.
Definition isspace (c : char) : bool := in_ranges space_ranges c.

(** [Py_UNICODE_ISALNUM]. *)
Definition isalnum (c : char) : bool :=
  isalpha c || isdecimal c || isdigit c || isnumeric c.

(** [int(s)] for a one-character [s]: the character's decimal value, or
    [ValueError] (a lone sign, underscore or blank is no literal). *)
Definition int_of_char (c : char) : result Z :=
  match to_decimal c with
  | Some d => Ok d
  | None => Raise ValueError
  end.

(** *** [str] methods *)

Definition char_eqb (a b : char) : bool := (a =? b)%N.

Fixpoint startswith (text sub : str) : bool :=
  match sub, text with
  | [], _ => true
  | _ :: _, [] => false
  | a :: sub', b :: text' => char_eqb a b && startswith text' sub'
  end.

(** Leftmost occurrence of [sub] in [text], reported from offset [i];
    [-1] when there is none. *)
Fixpoint find_from (text sub : str) (i : Z) : Z :=
  if startswith text sub then i
  else match text with
       | [] => -1
       | _ :: text' => find_from text' sub (i + 1)
       end.

Definition len {A} (xs : list A) : Z := Z.of_nat (List.length xs).

(** A negative index counts from the end, clipped at the start. *)
Definition adjust_start (n i : Z) : Z :=
  if i <? 0 then Z.max 0 (i + n) else i.

(** [text.find(sub, start)]. *)
Definition find (text sub : str) (start : Z) : Z :=
  let start := adjust_start (len text) start in
  if len text <? start then -1
  else find_from (skipn (Z.to_nat start) text) sub start.

(** [text[start:stop]]: both bounds are adjusted and clipped to the text. *)
Definition slice (text : str) (start stop : Z) : str :=
  let n := len text in
  let start := Z.min n (adjust_start n start) in
  let stop := Z.min n (adjust_start n stop) in
  firstn (Z.to_nat (stop - start)) (skipn (Z.to_nat start) text).

Fixpoint dropwhile {A} (p : A -> bool) (xs : list A) : list A :=
  match xs with
  | [] => []
  | x :: xs' => if p x then dropwhile p xs' else xs
  end.

Definition lstrip (s : str) : str := dropwhile isspace s.
Definition rstrip (s : str) : str := rev (dropwhile isspace (rev s)).

(** [s.strip()]: blanks are removed from the left, then from the right. *)
Definition strip (s : str) : str := rstrip (lstrip s).

(** [os.path.basename] on a POSIX system: what follows the last slash. *)
Fixpoint basename (p : str) : str :=
  match p with
  | [] => []
  | c :: p' =>
      if existsb (char_eqb 47%N) p' then basename p'
      else if char_eqb c 47%N then p' else p
  end.

(** [text.endswith(suffix)]. *)
Definition endswith (text suffix : str) : bool :=
  startswith (rev text) (rev suffix).

(** [sep.join(xs)]. *)
Fixpoint join (sep : str) (xs : list str) : str :=
  match xs with
  | [] => []
  | x :: xs' =>
      match xs' with
      | [] => x
      | _ :: _ => x ++ sep ++ join sep xs'
      end
  end.

(** [os.path.join(a, b)] on a POSIX system. *)
Definition path_join (a b : str) : str :=
  if startswith b [47%N] then b
  else
    match a with
    | [] => a ++ b
    | _ :: _ => if endswith a [47%N] then a ++ b else a ++ [47%N] ++ b
    end.

End Py.

(** ** The regular expression [\b\d{13}\b]

    [re.findall] walks a cursor through the text.  The cursor is kept as the
    character just before it ([prev], nothing at the start of the text) and
    the text ahead of it ([rest]), which is all the pattern's items look at. *)

Module Re.
Import Py.

(** [SRE_UNI_IS_WORD]: what [\w] means in a [str] pattern. *)
Definition is_word (c : char) : bool := isalnum c || char_eqb c 95%N.

Definition word_opt (c : option char) : bool :=
  match c with
  | Some c => is_word c
  | None => false
  end.

(** [\b]: exactly one of the two characters around the cursor is a word
    character; beyond either end of the text there is none. *)
Definition at_boundary (prev : option char) (rest : str) : bool :=
  negb (Bool.eqb (word_opt prev) (word_opt (hd_error rest))).

(** [\d{n}]: the [n] decimal digits consumed and the text left, if the
    next [n] characters are all decimal digits. *)
Fixpoint digits (n : nat) (rest : str) : option (str * str) :=
  match n with
  | O => Some ([], rest)
  | S n' =>
      match rest with
      | [] => None
      | c :: rest' =>
          if isdecimal c then
            match digits n' rest' with
            | Some (m, r) => Some (c :: m, r)
            | None => None
            end
          else None
      end
  end.

(** The character before the cursor once [m] has been consumed. *)
Definition prev_after (m : str) (prev : option char) : option char :=
  last (map Some m) prev.

(** One attempt of the whole pattern at the cursor; no item of it leaves a
    choice, so there is nothing to backtrack over. *)
Definition match_here (prev : option char) (rest : str)
  : option (str * str) :=
  if at_boundary prev rest then
    match digits 13 rest with
    | Some (m, rest') =>
        if at_boundary (prev_after m prev) rest' then Some (m, rest')
        else None
    | None => None
    end
  else None.

(** The search loop: try the pattern at the cursor; after a match go on
    behind it, otherwise one character further.  Every round with text
    ahead shortens it, so [fuel] above its length is never used up. *)
Fixpoint scan (fuel pos : nat) (prev : option char) (rest : str)
  : list (nat * str) :=
  match fuel with
  | O => []
  | S fuel' =>
      match match_here prev rest with
      | Some (m, rest') =>
          (pos, m) ::
          scan fuel' (pos + List.length m) (prev_after m prev) rest'
      | None =>
          match rest with
          | [] => []
          | c :: rest' => scan fuel' (S pos) (Some c) rest'
          end
      end
  end.

(** The matches with their start positions, in the order found. *)
Definition finditer (text : str) : list (nat * str) :=
  scan (S (List.length text)) 0 None text.

(** [re.findall(r'\b\d{13}\b', text)]. *)
Definition findall (text : str) : list str := map snd (finditer text).

End Re.

(** ** The module [main.py] *)

Module Main.
Import Py.

Definition emso_factor_map : list Z := [7; 6; 5; 4; 3; 2; 7; 6; 5; 4; 3; 2].

Definition validate_emso (emso : str) : result bool :=
  terms <- comprehension
             (fun i =>
                c <- getitem emso i ;;
                d <- int_of_char c ;;
                f <- getitem emso_factor_map i ;;
                Ok (d * f))
             (seq 0 12) ;;
  let control_digit := sum terms mod 11 in
  let control_digit :=
    if control_digit =? 0 then 0 else 11 - control_digit in
  c <- getitem emso 12 ;;
  d <- int_of_char c ;;
  Ok (control_digit =? d).

Definition not_found_message : str := lit "No 13-digit number found".

(** The tuple returned has three components when nothing is found and two
    when something is. *)
Definition find_valid_emso (text : str) : result (list value) :=
  let numbers := Re.findall text in
  match numbers with
  | [] => Ok [VNone; VBool false; VStr not_found_message]
  | first_number :: _ =>
      is_valid <- validate_emso first_number ;;
      Ok [VStr first_number; VBool is_valid]
  end.

(** The label, whose first letter is U+0160. *)
Definition key : str := 352%N :: lit "tevilka:".
Definition newline : str := [10%N].

Definition get_stevilka (text : str) : option str :=
  let start := find text key 0 in
  if start =? -1 then None
  else
    let start := start + len key in
    let end_ := find text newline start in
    let end_ := if end_ =? -1 then len text else end_ in
    Some (strip (slice text start end_)).

(** The dictionary [process_pdf] builds. *)
Record DocumentRecord := {
  fileName : str;
  stevilkaDokumenta : value;
  emso : value;
  emsoIsValid : value
}.

Definition of_option (o : option str) : value :=
  match o with
  | Some s => VStr s
  | None => VNone
  end.

Section Processor.

(** Text extraction reads the file system through PyPDF2; it is the one
    collaborator of the core and never raises: it yields the empty text
    whenever extraction fails. *)
Variable extract_text_from_pdf : str -> str.

(** Progress messages printed on the way are not part of the result. *)
Definition process_pdf (pdf_path : str) : result (option DocumentRecord) :=
  let extracted_text := extract_text_from_pdf pdf_path in
  match extracted_text with
  | [] => Ok None
  | _ :: _ =>
      t <- find_valid_emso extracted_text ;;
      '(emso, is_emso_valid) <- unpack2 t ;;
      let stevilka := get_stevilka extracted_text in
      Ok (Some {| fileName := basename pdf_path;
                  stevilkaDokumenta := of_option stevilka;
                  emso := emso;
                  emsoIsValid := is_emso_valid |})
  end.

End Processor.

(** *** The batch driver and its surroundings *)

(** What opening the output file for writing, or [json.dump] into it, can
    raise: the kinds of [OSError] that [open] meets, any other [OSError],
    and the encoding error of a text that UTF-8 cannot hold. *)
Inductive output_exn :=
| FileNotFoundError
| IsADirectoryError
| PermissionError
| OSError
| UnicodeEncodeError.

(** What the program reads from and writes to outside: the file system,
    PyPDF2 behind [open] and [PdfReader], the runtime's case mapping and
    the output file.  A reading call that raises is a [None]: the one
    handler there is catches every exception alike.  Nothing catches what
    writing the output raises. *)
Record World := {
  path_exists : str -> bool;
  path_isdir : str -> bool;
  path_isfile : str -> bool;
  glob : str -> list str;
  (** the pages of a file, each with what [extract_text] gives for it *)
  read_pages : str -> option (list (option str));
  lower : str -> str;
  (** [open(output, 'w')] and [json.dump(results, f)]: the exception one of
      them raises, if any *)
  write_output : str -> list DocumentRecord -> option output_exn
}.

(** The loop over the pages: texts that are not empty are collected; a page
    whose extraction raises ends the loop with that exception. *)
Fixpoint page_texts (pages : list (option str)) : option (list str) :=
  match pages with
  | [] => Some []
  | None :: _ => None
  | Some text :: pages' =>
      match page_texts pages' with
      | None => None
      | Some full_text =>
          Some (match text with
                | [] => full_text
                | _ :: _ => text :: full_text
                end)
      end
  end.

Definition extract_text_from_pdf (w : World) (pdf_path : str) : str :=
  if negb (path_exists w pdf_path) then []
  else
    match read_pages w pdf_path with
    | None => []
    | Some pages =>
        match page_texts pages with
        | None => []
        | Some full_text => join newline full_text
        end
    end.

(** How a run of [main] ends when it does not raise: it returned before
    touching any document, or it dumped the results into the output
    file. *)
Inductive outcome :=
| Halted
| Dumped (output : str) (results : list DocumentRecord).

(** What escapes a run of [main]: an exception of a document's processing,
    or one of writing the output. *)
Inductive main_exn :=
| FromDocument (e : exn)
| FromOutput (e : output_exn).

Inductive run :=
| Returned (o : outcome)
| Uncaught (e : main_exn).

(** The loop over the files: a [None] from [process_pdf] adds nothing, an
    exception ends the loop and the run. *)
Fixpoint process_files (w : World) (pdf_files_to_process : list str)
  : result (list DocumentRecord) :=
  match pdf_files_to_process with
  | [] => Ok []
  | pdf_file :: files =>
      data <- process_pdf (extract_text_from_pdf w) pdf_file ;;
      results <- process_files w files ;;
      Ok (match data with
          | Some record => record :: results
          | None => results
          end)
  end.

(** [main] after argument parsing, on the two parsed arguments: the
    files are chosen, or the run returns; the files are gone through; the
    results are written. *)
Definition main (w : World) (input_path output : str) : run :=
  if negb (path_exists w input_path) then Returned Halted
  else
    let pdf_files_to_process :=
      if path_isdir w input_path then
        Some (glob w (path_join input_path (lit "*.pdf")))
      else if path_isfile w input_path
              && endswith (lower w input_path) (lit ".pdf") then
        Some [input_path]
      else None in
    match pdf_files_to_process with
    | None => Returned Halted
    | Some files =>
        match process_files w files with
        | Raise e => Uncaught (FromDocument e)
        | Ok results =>
            match write_output w output results with
            | Some e => Uncaught (FromOutput e)
            | None => Returned (Dumped output results)
            end
        end
    end.

End Main.

(** ** Notions of the specification

    The definitions of this part follow the specification's wording, or
    name positions of a text independently of the search loop; the
    functions above are compared with them. *)

Import Py Re Main.

Arguments to_decimal : simpl never.
Arguments isdecimal : simpl never.
Arguments isalnum : simpl never.
Arguments isspace : simpl never.
Arguments is_word : simpl never.

(** The ASCII character of a digit value. *)
Definition ascii_digit (d : Z) : char := Z.to_N (48 + d).

(** The value of the digit at position [i] (0 where there is none). *)
Definition digit_at (emso : str) (i : nat) : Z :=
  match nth_error emso i with
  | Some c => match to_decimal c with Some d => d | None => 0 end
  | None => 0
  end.

(** The weighted sum over positions 0..11, weights 7 6 5 4 3 2 7 6 5 4 3 2. *)
Definition spec_weighted_sum (emso : str) : Z :=
  7 * digit_at emso 0 + 6 * digit_at emso 1 + 5 * digit_at emso 2
  + 4 * digit_at emso 3 + 3 * digit_at emso 4 + 2 * digit_at emso 5
  + 7 * digit_at emso 6 + 6 * digit_at emso 7 + 5 * digit_at emso 8
  + 4 * digit_at emso 9 + 3 * digit_at emso 10 + 2 * digit_at emso 11.

(** [control = 0 if remainder == 0 else 11 - remainder]. *)
Definition spec_control (emso : str) : Z :=
  let remainder := spec_weighted_sum emso mod 11 in
  if remainder =? 0 then 0 else 11 - remainder.

(** Thirteen characters from [pos] on, all satisfying [dig]. *)
Definition digits_at (dig : char -> bool) (text : str) (pos : nat) : bool :=
  forallb
    (fun i =>
       match nth_error text (pos + i) with
       | Some c => dig c
       | None => false
       end)
    (seq 0 13).

(** The characters next to the thirteen, where the text has them. *)
Definition before (text : str) (pos : nat) : option char :=
  match pos with
  | O => None
  | S q => nth_error text q
  end.

Definition after (text : str) (pos : nat) : option char :=
  nth_error text (pos + 13).

Definition lacks (p : char -> bool) (c : option char) : bool :=
  match c with
  | Some c => negb (p c)
  | None => true
  end.

(** The specification's matching rule: a run of exactly thirteen digits
    with a non-digit, or an end of the text, on each side. *)
Definition maximal_digit_run (dig : char -> bool) (text : str) (pos : nat)
  : bool :=
  digits_at dig text pos && lacks dig (before text pos)
  && lacks dig (after text pos).

(** The rule the pattern states: thirteen decimal digits with a non-word
    character, or an end of the text, on each side. *)
Definition word_bounded_run (text : str) (pos : nat) : bool :=
  digits_at isdecimal text pos && lacks is_word (before text pos)
  && lacks is_word (after text pos).

(** The thirteen characters from [pos] on. *)
Definition candidate (text : str) (pos : nat) : str :=
  firstn 13 (skipn pos text).

(** The sample identifier 0101006500006 written in Arabic-Indic digits
    (U+0660 and following). *)
Definition arabic_indic_emso : str :=
  map (fun d => 1632 + d)%N [0; 1; 0; 1; 0; 0; 6; 5; 0; 0; 0; 0; 6]%N.

(** The ASCII decimal digits 0-9. *)
Definition is_ascii_digit (c : char) : bool := ((48 <=? c) && (c <=? 57))%N.

(** Code points below 128. *)
Definition is_ascii (c : char) : bool := (c <? 128)%N.

(** Blank-free ends: what trimming leaves. *)
Definition trimmed (s : str) : Prop :=
  lacks isspace (hd_error s) = true /\ lacks isspace (hd_error (rev s)) = true.

(** [sub] occurs in [text] after [pre]. *)
Definition occurs_after (text sub pre : str) : Prop :=
  exists post, text = pre ++ sub ++ post.

(** *** Notions for the further properties *)

(** What reading the first [n] characters as digits meets first: the end
    of the text, a character that is no digit, or neither. *)
Fixpoint digits_error (s : str) (n : nat) {struct n} : option exn :=
  match n with
  | O => None
  | S n' =>
      match s with
      | [] => Some IndexError
      | c :: s' => if isdecimal c then digits_error s' n' else Some ValueError
      end
  end.

(** One summand of the comprehension in [validate_emso]. *)
Definition weighted_digit (emso : str) (i : nat) : result Z :=
  c <- getitem emso i ;;
  d <- int_of_char c ;;
  f <- getitem emso_factor_map i ;;
  Ok (d * f).

(** [s] with the character at position [i] replaced by [c]. *)
Definition replace_at (i : nat) (c : char) (s : str) : str :=
  firstn i s ++ c :: skipn (S i) s.

(** [s] with the characters at positions [i] and [i + 1] exchanged. *)
Definition swap_at (i : nat) (s : str) : str :=
  match skipn i s with
  | a :: b :: rest => firstn i s ++ b :: a :: rest
  | _ => s
  end.

(** The page texts that are not empty. *)
Definition nonempty_texts (pages : list str) : list str :=
  filter (fun text => match text with [] => false | _ :: _ => true end) pages.

(** The first value present in a list of optional ones. *)
Fixpoint first_some {A} (xs : list (option A)) : option A :=
  match xs with
  | [] => None
  | Some x :: _ => Some x
  | None :: xs' => first_some xs'
  end.

(** The locator's answer on the first page that has a run, its "not found"
    when no page has one. *)
Fixpoint first_found (pages : list str) : result (list value) :=
  match pages with
  | [] => Ok [VNone; VBool false; VStr not_found_message]
  | page :: pages' =>
      match finditer page with
      | [] => first_found pages'
      | _ :: _ => find_valid_emso page
      end
  end.

(** The files a run of [main] goes through, when it goes through any. *)
Definition selected_files (w : World) (input_path : str)
  : option (list str) :=
  if negb (path_exists w input_path) then None
  else if path_isdir w input_path then
    Some (glob w (path_join input_path (lit "*.pdf")))
  else if path_isfile w input_path
          && endswith (lower w input_path) (lit ".pdf") then
    Some [input_path]
  else None.

(** The records of the documents that yield one, in the order of the
    files. *)
Definition records_of (w : World) (files : list str) : list DocumentRecord :=
  flat_map
    (fun pdf_file =>
       match process_pdf (extract_text_from_pdf w) pdf_file with
       | Ok (Some record) => [record]
       | _ => []
       end)
    files.

(** Equality of texts, decided. *)
Definition str_eqb (a b : str) : bool :=
  (List.length a =? List.length b)%nat && startswith a b.

(** A small world to run the batch driver in: the directory [vhod] holds
    [a.pdf], three pages of which the second is blank, and [b.pdf], one
    page without an identifier; the output can be written into the working
    directory and into [vhod], and there is no other directory. *)
Definition sample_pages_a : list str :=
  [lit "Dopis"; [];
   key ++ lit " AB-123/2024 " ++ newline ++ lit "EMSO 0101006500006"].

Definition sample_world : World := {|
  path_exists := fun p =>
    str_eqb p (lit "vhod") || str_eqb p (lit "vhod/a.pdf")
    || str_eqb p (lit "vhod/b.pdf");
  path_isdir := fun p => str_eqb p (lit "vhod");
  path_isfile := fun p =>
    str_eqb p (lit "vhod/a.pdf") || str_eqb p (lit "vhod/b.pdf");
  glob := fun pattern =>
    if str_eqb pattern (lit "vhod/*.pdf")
    then [lit "vhod/a.pdf"; lit "vhod/b.pdf"] else [];
  read_pages := fun p =>
    if str_eqb p (lit "vhod/a.pdf") then Some (map Some sample_pages_a)
    else if str_eqb p (lit "vhod/b.pdf") then Some [Some (lit "brez stevilke")]
    else None;
  lower := fun p => p;
  write_output := fun output _ =>
    if negb (existsb (char_eqb 47%N) output)
       || startswith output (lit "vhod/")
    then None else Some FileNotFoundError
|}.

(** ** Properties of the extraction core *)

(** *** Digits *)

Lemma to_decimal_bounds (c : char) (d : Z) :
  to_decimal c = Some d -> 0 <= d <= 9.
Proof.
  unfold to_decimal.
  destruct (range_offset decimal_ranges c) as [off|]; [|discriminate].
  intros [= <-].
  pose proof (N.mod_lt off 10 ltac:(discriminate)) as Hlt.
  split; [apply N2Z.is_nonneg|].
  change 9 with (Z.of_N 9). apply N2Z.inj_le. lia.
Qed.

Lemma isdecimal_value (c : char) :
  isdecimal c = true -> exists d, to_decimal c = Some d /\ 0 <= d <= 9.
Proof.
  unfold isdecimal.
  destruct (to_decimal c) as [d|] eqn:E; [|discriminate].
  intros _. exists d. split; [reflexivity|]. now apply to_decimal_bounds with c.
Qed.

Lemma int_of_char_decimal (c : char) (d : Z) :
  to_decimal c = Some d -> int_of_char c = Ok d.
Proof. unfold int_of_char. now intros ->. Qed.

Lemma to_decimal_ascii_digit (d : Z) :
  0 <= d <= 9 -> to_decimal (ascii_digit d) = Some d.
Proof.
  intros Hd.
  assert (Hc : In d [0; 1; 2; 3; 4; 5; 6; 7; 8; 9]) by (simpl; lia).
  simpl in Hc.
  repeat (destruct Hc as [<- | Hc]; [vm_compute; reflexivity|]).
  contradiction.
Qed.

Lemma isdecimal_is_word (c : char) : isdecimal c = true -> is_word c = true.
Proof.
  intros H. unfold is_word, isalnum. rewrite H.
  now rewrite !orb_true_r.
Qed.

(** *** The checksum *)

Lemma spec_control_bounds (emso : str) : 0 <= spec_control emso <= 10.
Proof.
  unfold spec_control.
  pose proof (Z.mod_pos_bound (spec_weighted_sum emso) 11 ltac:(lia)).
  destruct (Z.eqb_spec (spec_weighted_sum emso mod 11) 0); lia.
Qed.

(** Turning [isdecimal c = true] into the digit's value. *)
Ltac digit_values :=
  repeat match goal with
    | H : isdecimal ?c = true |- _ =>
        let d := fresh "d" in
        let E := fresh "E" in
        let B := fresh "B" in
        destruct (isdecimal_value c H) as (d & E & B); clear H
    end.

Ltac split_andb :=
  repeat match goal with
    | H : _ && _ = true |- _ => apply andb_prop in H; destruct H
    end.

(** The validator on a text whose first thirteen characters are digits: it
    returns, and what it returns is the comparison the specification
    describes. *)
Lemma validate_emso_eval (emso extra : str) :
  List.length emso = 13%nat -> forallb isdecimal emso = true ->
  validate_emso (emso ++ extra) = Ok (spec_control emso =? digit_at emso 12).
Proof.
  intros Hlen Hdig.
  do 14 (destruct emso as [|? emso]; try discriminate Hlen).
  cbn [forallb] in Hdig. split_andb. digit_values.
  unfold validate_emso, spec_control, spec_weighted_sum, digit_at,
    emso_factor_map.
  cbn [app comprehension seq getitem nth_error bind].
  repeat match goal with
    | E : to_decimal ?c = Some _ |- _ =>
        rewrite (int_of_char_decimal _ _ E); rewrite ?E; clear E
    end.
  cbn [bind comprehension]. unfold sum. cbn [fold_left].
  match goal with
  | |- Ok ((if ?a mod 11 =? 0 then _ else _) =? _) =
       Ok ((if ?b mod 11 =? 0 then _ else _) =? _) =>
      replace a with b by ring
  end.
  reflexivity.
Qed.

Lemma spec_control_prefix (prefix extra : str) :
  List.length prefix = 12%nat ->
  spec_control (prefix ++ extra) = spec_control prefix.
Proof.
  intros Hlen.
  do 13 (destruct prefix as [|? prefix]; try discriminate Hlen).
  unfold spec_control, spec_weighted_sum, digit_at.
  cbn [app nth_error]. reflexivity.
Qed.

Lemma digit_at_last (prefix : str) (c : char) (d : Z) :
  List.length prefix = 12%nat -> to_decimal c = Some d ->
  digit_at (prefix ++ [c]) 12 = d.
Proof.
  intros Hlen E. unfold digit_at.
  rewrite nth_error_app2 by lia. rewrite Hlen. cbn. now rewrite E.
Qed.

(** A twelve-digit prefix completed by one more digit. *)
Lemma validate_emso_completed (prefix : str) (c : char) (d : Z) :
  List.length prefix = 12%nat -> forallb isdecimal prefix = true ->
  to_decimal c = Some d ->
  validate_emso (prefix ++ [c]) = Ok (spec_control prefix =? d).
Proof.
  intros Hlen Hdig E.
  rewrite <- (app_nil_r (prefix ++ [c])).
  rewrite validate_emso_eval.
  - now rewrite spec_control_prefix, (digit_at_last _ _ _ Hlen E).
  - rewrite length_app, Hlen. reflexivity.
  - rewrite forallb_app, Hdig. cbn. unfold isdecimal. now rewrite E.
Qed.

Lemma validate_emso_bad_last (prefix : str) (c : char) :
  List.length prefix = 12%nat -> forallb isdecimal prefix = true ->
  to_decimal c = None ->
  validate_emso (prefix ++ [c]) = Raise ValueError.
Proof.
  intros Hlen Hdig Hc.
  do 13 (destruct prefix as [|? prefix]; try discriminate Hlen).
  cbn [forallb] in Hdig. split_andb. digit_values.
  unfold validate_emso, emso_factor_map.
  cbn [app comprehension seq getitem nth_error bind].
  repeat match goal with
    | E : to_decimal ?c = Some _ |- _ =>
        rewrite (int_of_char_decimal _ _ E); clear E
    end.
  cbn [bind comprehension]. unfold int_of_char. rewrite Hc. reflexivity.
Qed.

(** C2: on a string of thirteen decimal digits the validator returns a
    boolean, and that boolean is true exactly when the digit at position 12
    equals the control digit: the weighted sum of the digits at positions
    0..11 with weights 7 6 5 4 3 2 7 6 5 4 3 2, reduced modulo 11, gives
    control 0 for remainder 0 and 11 minus the remainder otherwise. *)
Theorem validate_emso_checksum (emso : str) :
  List.length emso = 13%nat -> forallb isdecimal emso = true ->
  exists verdict : bool,
    validate_emso emso = Ok verdict /\
    (verdict = true <-> digit_at emso 12 = spec_control emso).
Proof.
  intros Hlen Hdig.
  exists (spec_control emso =? digit_at emso 12). split.
  - rewrite <- (app_nil_r emso) at 1. now apply validate_emso_eval.
  - rewrite Z.eqb_eq. split; intros H; now symmetry.
Qed.

Lemma validate_emso_checksum_witness :
  exists verdict : bool,
    validate_emso (lit "0101006500006") = Ok verdict /\
    (verdict = true <->
     digit_at (lit "0101006500006") 12 = spec_control (lit "0101006500006")).
Proof.
  apply validate_emso_checksum; vm_compute; reflexivity.
Defined.

(** C4: with the first twelve digits fixed and the thirteenth ranging over
    0..9, the validator accepts the computed control digit and rejects the
    nine others, unless the control digit computes to 10, when it rejects
    all ten. *)
Theorem validate_emso_thirteenth_digit (prefix : str) :
  List.length prefix = 12%nat -> forallb isdecimal prefix = true ->
  (spec_control prefix <> 10 ->
   0 <= spec_control prefix <= 9 /\
   validate_emso (prefix ++ [ascii_digit (spec_control prefix)]) = Ok true /\
   forall d, 0 <= d <= 9 -> d <> spec_control prefix ->
             validate_emso (prefix ++ [ascii_digit d]) = Ok false) /\
  (spec_control prefix = 10 ->
   forall d, 0 <= d <= 9 ->
             validate_emso (prefix ++ [ascii_digit d]) = Ok false).
Proof.
  intros Hlen Hdig.
  pose proof (spec_control_bounds prefix) as Hk.
  assert (Hval : forall d, 0 <= d <= 9 ->
            validate_emso (prefix ++ [ascii_digit d])
            = Ok (spec_control prefix =? d)).
  { intros d Hd. apply validate_emso_completed; trivial.
    now apply to_decimal_ascii_digit. }
  split.
  - intros Hne. split; [lia|]. split.
    + rewrite Hval by lia. now rewrite Z.eqb_refl.
    + intros d Hd Hdk. rewrite Hval by lia.
      f_equal. apply Z.eqb_neq. congruence.
  - intros Hten d Hd. rewrite Hval by lia.
    f_equal. apply Z.eqb_neq. lia.
Qed.

Lemma validate_emso_thirteenth_digit_witness :
  (spec_control (lit "010100650000") <> 10 ->
   0 <= spec_control (lit "010100650000") <= 9 /\
   validate_emso
     (lit "010100650000" ++ [ascii_digit (spec_control (lit "010100650000"))])
   = Ok true /\
   forall d, 0 <= d <= 9 -> d <> spec_control (lit "010100650000") ->
             validate_emso (lit "010100650000" ++ [ascii_digit d]) = Ok false)
  /\
  (spec_control (lit "010100650000") = 10 ->
   forall d, 0 <= d <= 9 ->
             validate_emso (lit "010100650000" ++ [ascii_digit d]) = Ok false).
Proof.
  apply (validate_emso_thirteenth_digit (lit "010100650000"));
    vm_compute; reflexivity.
Defined.

(** C5, as amended: for a twelve-digit prefix whose control digit computes
    to a single digit (anything but 10), appending that digit and validating
    the thirteen characters yields true. *)
Theorem validate_emso_round_trip (prefix : str) :
  List.length prefix = 12%nat -> forallb isdecimal prefix = true ->
  spec_control prefix <> 10 ->
  validate_emso (prefix ++ [ascii_digit (spec_control prefix)]) = Ok true.
Proof.
  intros Hlen Hdig Hne.
  pose proof (spec_control_bounds prefix) as Hk.
  rewrite (validate_emso_completed prefix _ (spec_control prefix));
    trivial.
  - now rewrite Z.eqb_refl.
  - apply to_decimal_ascii_digit. lia.
Qed.

Lemma validate_emso_round_trip_witness :
  validate_emso
    (lit "010100650000" ++ [ascii_digit (spec_control (lit "010100650000"))])
  = Ok true.
Proof.
  apply (validate_emso_round_trip (lit "010100650000"));
    vm_compute; [reflexivity | reflexivity | discriminate].
Defined.

(** The prefix 000000000006 has weighted sum 12, remainder 1 and control 10:
    whatever thirteenth character follows it, and also when the two
    characters of "10" do, the validator does not return true. *)
Lemma round_trip_fails_at_control_ten :
  List.length (lit "000000000006") = 12%nat /\
  forallb isdecimal (lit "000000000006") = true /\
  spec_control (lit "000000000006") = 10 /\
  (forall c, validate_emso (lit "000000000006" ++ [c]) <> Ok true) /\
  validate_emso (lit "000000000006" ++ lit "10") = Ok false.
Proof.
  assert (Hlen : List.length (lit "000000000006") = 12%nat) by reflexivity.
  assert (Hdig : forallb isdecimal (lit "000000000006") = true)
    by (vm_compute; reflexivity).
  assert (Hten : spec_control (lit "000000000006") = 10)
    by (vm_compute; reflexivity).
  split; [exact Hlen|]. split; [exact Hdig|]. split; [exact Hten|]. split.
  - intros c.
    destruct (to_decimal c) as [d|] eqn:E.
    + rewrite (validate_emso_completed _ c d Hlen Hdig E), Hten.
      apply to_decimal_bounds in E.
      destruct (Z.eqb_spec 10 d); [lia | discriminate].
    + rewrite (validate_emso_bad_last _ c Hlen Hdig E). discriminate.
  - vm_compute; reflexivity.
Qed.

(** *** The pattern at one cursor position *)

Lemma last_nonempty {A} (x : A) (xs : list A) (d d' : A) :
  last (x :: xs) d = last (x :: xs) d'.
Proof.
  revert x. induction xs as [|y ys IH]; intros x; [reflexivity|].
  change (last (y :: ys) d = last (y :: ys) d'). apply IH.
Qed.

Lemma last_app_default {A} (a b : list A) (d : A) :
  last (a ++ b) d = last b (last a d).
Proof.
  induction a as [|x a IH]; [reflexivity|].
  destruct a as [|y a].
  - destruct b as [|z b]; [reflexivity|].
    change (last (z :: b) d = last (z :: b) x). apply last_nonempty.
  - change (last ((y :: a) ++ b) d = last b (last (y :: a) d)). exact IH.
Qed.

Lemma prev_after_app (a b : str) (prev : option char) :
  prev_after (a ++ b) prev = prev_after b (prev_after a prev).
Proof. unfold prev_after. rewrite map_app. apply last_app_default. Qed.

Lemma prev_after_snoc (a : str) (c : char) (prev : option char) :
  prev_after (a ++ [c]) prev = Some c.
Proof. rewrite prev_after_app. reflexivity. Qed.

Lemma prev_after_decimal (m : str) (prev : option char) :
  m <> [] -> forallb isdecimal m = true ->
  word_opt (prev_after m prev) = true.
Proof.
  intros Hne Hdig.
  destruct (exists_last Hne) as (m' & c & ->).
  rewrite prev_after_snoc. cbn.
  rewrite forallb_app in Hdig. apply andb_prop in Hdig as [_ Hc].
  cbn in Hc. rewrite andb_true_r in Hc. now apply isdecimal_is_word.
Qed.

Lemma lacks_word (o : option char) : lacks is_word o = negb (word_opt o).
Proof. destruct o; reflexivity. Qed.

Lemma lacks_word_decimal (o : option char) :
  lacks is_word o = true -> lacks isdecimal o = true.
Proof.
  destruct o as [c|]; [|reflexivity]. cbn.
  destruct (isdecimal c) eqn:E; [|reflexivity].
  now rewrite (isdecimal_is_word c E).
Qed.

Lemma digits_sound (n : nat) (rest m r : str) :
  digits n rest = Some (m, r) ->
  rest = m ++ r /\ List.length m = n /\ forallb isdecimal m = true.
Proof.
  revert rest m r. induction n as [|n IH]; intros rest m r.
  - cbn. intros [= <- <-]. auto.
  - cbn [digits]. destruct rest as [|c rest']; [discriminate|].
    destruct (isdecimal c) eqn:Hc; [|discriminate].
    destruct (digits n rest') as [[m' r']|] eqn:E; [|discriminate].
    intros [= <- <-]. destruct (IH _ _ _ E) as (-> & <- & Hd).
    cbn. rewrite Hc, Hd. auto.
Qed.

Lemma digits_complete (m r : str) :
  forallb isdecimal m = true ->
  digits (List.length m) (m ++ r) = Some (m, r).
Proof.
  induction m as [|c m IH]; [reflexivity|].
  cbn [forallb]. intros H. apply andb_prop in H as [Hc Hm].
  cbn [List.length app digits]. now rewrite Hc, IH.
Qed.

(** The pattern matches at the cursor exactly when thirteen decimal digits
    lie ahead with no word character on either side of them. *)
Lemma match_here_iff (prev : option char) (rest m rest' : str) :
  match_here prev rest = Some (m, rest') <->
  rest = m ++ rest' /\ List.length m = 13%nat /\
  forallb isdecimal m = true /\
  word_opt prev = false /\ word_opt (hd_error rest') = false.
Proof.
  unfold match_here, at_boundary. split.
  - destruct (negb (Bool.eqb (word_opt prev) (word_opt (hd_error rest))))
      eqn:B1; [|discriminate].
    destruct (digits 13 rest) as [[m0 r0]|] eqn:D; [|discriminate].
    destruct (digits_sound _ _ _ _ D) as (-> & Hlen & Hdig).
    assert (Hne : m0 <> []) by (intros ->; discriminate Hlen).
    rewrite (prev_after_decimal m0 prev Hne Hdig).
    destruct (word_opt (hd_error r0)) eqn:W; [discriminate|].
    intros [= <- <-]. repeat split; trivial.
    destruct m0 as [|c m0]; [congruence|].
    cbn [forallb] in Hdig. apply andb_prop in Hdig as [Hc _].
    cbn [app hd_error word_opt] in B1.
    rewrite (isdecimal_is_word c Hc) in B1.
    now destruct (word_opt prev).
  - intros (-> & Hlen & Hdig & Hp & Ha).
    assert (Hne : m <> []) by (intros ->; discriminate Hlen).
    assert (Hhd : word_opt (hd_error (m ++ rest')) = true).
    { destruct m as [|c m]; [congruence|].
      cbn [forallb] in Hdig. apply andb_prop in Hdig as [Hc _].
      cbn. now apply isdecimal_is_word. }
    rewrite Hp, Hhd. cbn [Bool.eqb negb].
    rewrite <- Hlen, (digits_complete m rest' Hdig).
    now rewrite (prev_after_decimal m prev Hne Hdig), Ha.
Qed.

(** *** Positions of a text *)

Lemma digits_at_iff (dig : char -> bool) (text : str) (pos : nat) :
  digits_at dig text pos = true <->
  forall i, (i < 13)%nat ->
            exists c, nth_error text (pos + i) = Some c /\ dig c = true.
Proof.
  unfold digits_at. rewrite forallb_forall. split.
  - intros H i Hi. specialize (H i). rewrite in_seq in H.
    specialize (H ltac:(lia)).
    destruct (nth_error text (pos + i)) as [c|]; [|discriminate].
    now exists c.
  - intros H i Hi. rewrite in_seq in Hi.
    destruct (H i ltac:(lia)) as (c & -> & Hc). exact Hc.
Qed.

Lemma before_app (pre rest : str) :
  before (pre ++ rest) (List.length pre) = prev_after pre None.
Proof.
  destruct pre as [|x pre'] using rev_ind; [reflexivity|].
  rewrite prev_after_snoc, length_app, Nat.add_comm. cbn [List.length Nat.add before].
  rewrite <- app_assoc, nth_error_app2 by lia.
  now rewrite Nat.sub_diag.
Qed.

Lemma after_app (pre m rest' : str) :
  List.length m = 13%nat ->
  after (pre ++ m ++ rest') (List.length pre) = hd_error rest'.
Proof.
  intros Hlen. unfold after.
  rewrite nth_error_app2 by lia.
  rewrite nth_error_app2 by lia.
  replace (List.length pre + 13 - List.length pre - List.length m)%nat
    with 0%nat by lia.
  now destruct rest'.
Qed.

Lemma digits_at_app (dig : char -> bool) (pre m rest' : str) :
  List.length m = 13%nat ->
  digits_at dig (pre ++ m ++ rest') (List.length pre) = forallb dig m.
Proof.
  intros Hlen. apply eq_true_iff_eq.
  rewrite digits_at_iff, forallb_forall. split.
  - intros H c Hc. apply In_nth_error in Hc as (i & Hi).
    assert (i < 13)%nat
      by (rewrite <- Hlen; apply nth_error_Some; congruence).
    destruct (H i ltac:(lia)) as (c' & Hc' & Hd).
    rewrite nth_error_app2, nth_error_app1 in Hc' by lia.
    replace (List.length pre + i - List.length pre)%nat with i in Hc' by lia.
    congruence.
  - intros H i Hi.
    destruct (nth_error m i) as [c|] eqn:E.
    + exists c. split; [|apply H; eapply nth_error_In; eauto].
      rewrite nth_error_app2, nth_error_app1 by lia.
      now replace (List.length pre + i - List.length pre)%nat with i by lia.
    + apply nth_error_None in E. lia.
Qed.

(** A position holding thirteen characters splits the text around them. *)
Lemma digits_at_split (dig : char -> bool) (text : str) (pos : nat) :
  digits_at dig text pos = true ->
  exists rest', text = firstn pos text ++ candidate text pos ++ rest' /\
                List.length (firstn pos text) = pos /\
                List.length (candidate text pos) = 13%nat.
Proof.
  intros H. rewrite digits_at_iff in H.
  destruct (H 12%nat ltac:(lia)) as (c & Hc & _).
  assert (pos + 12 < List.length text)%nat
    by (apply nth_error_Some; congruence).
  exists (skipn 13 (skipn pos text)). unfold candidate.
  rewrite !firstn_skipn. split; [reflexivity|].
  rewrite !length_firstn, length_skipn. lia.
Qed.

(** The pattern's rule at a position, read off a split of the text. *)
Lemma word_bounded_run_app (pre m rest' : str) :
  List.length m = 13%nat ->
  word_bounded_run (pre ++ m ++ rest') (List.length pre) =
  forallb isdecimal m && negb (word_opt (prev_after pre None))
  && negb (word_opt (hd_error rest')).
Proof.
  intros Hlen. unfold word_bounded_run.
  now rewrite digits_at_app, before_app, after_app, !lacks_word.
Qed.

Lemma candidate_app (pre m rest' : str) :
  List.length m = 13%nat ->
  candidate (pre ++ m ++ rest') (List.length pre) = m.
Proof.
  intros Hlen. unfold candidate.
  rewrite skipn_app, skipn_all, Nat.sub_diag. cbn [skipn app].
  rewrite <- Hlen, firstn_app, firstn_all, Nat.sub_diag.
  cbn [firstn]. apply app_nil_r.
Qed.

(** *** The search loop *)

(** At the cursor the loop's attempt and the rule agree. *)
Lemma match_here_run (pre rest m rest' : str) :
  match_here (prev_after pre None) rest = Some (m, rest') ->
  rest = m ++ rest' /\ List.length m = 13%nat /\
  forallb isdecimal m = true /\
  word_bounded_run (pre ++ rest) (List.length pre) = true /\
  candidate (pre ++ rest) (List.length pre) = m.
Proof.
  intros H. apply match_here_iff in H as (-> & Hlen & Hdig & Hp & Ha).
  repeat split; trivial.
  - rewrite word_bounded_run_app by trivial. now rewrite Hdig, Hp, Ha.
  - now apply candidate_app.
Qed.

Lemma match_here_no_run (pre rest : str) :
  match_here (prev_after pre None) rest = None ->
  word_bounded_run (pre ++ rest) (List.length pre) = false.
Proof.
  intros H.
  destruct (word_bounded_run (pre ++ rest) (List.length pre)) eqn:W;
    [|reflexivity].
  assert (D : digits_at isdecimal (pre ++ rest) (List.length pre) = true).
  { unfold word_bounded_run in W. now split_andb. }
  destruct (digits_at_split _ _ _ D) as (rest' & Htext & Hpre & Hlen).
  rewrite firstn_app, firstn_all, Nat.sub_diag in Htext.
  cbn [firstn] in Htext. rewrite app_nil_r in Htext.
  apply app_inv_head in Htext.
  set (m := candidate (pre ++ rest) (List.length pre)) in *.
  rewrite Htext, word_bounded_run_app in W by trivial.
  split_andb.
  assert (M : match_here (prev_after pre None) rest = Some (m, rest')).
  { apply match_here_iff. repeat split; trivial;
      now apply negb_true_iff. }
  congruence.
Qed.

(** No run starts inside another one: the character before it would be a
    digit, which is a word character. *)
Lemma no_run_inside (pre m rest' : str) (p : nat) :
  forallb isdecimal m = true ->
  (List.length pre < p <= List.length pre + List.length m)%nat ->
  word_bounded_run (pre ++ m ++ rest') p = false.
Proof.
  intros Hdig Hp. unfold word_bounded_run.
  destruct p as [|q]; [lia|]. cbn [before].
  rewrite nth_error_app2, nth_error_app1 by lia.
  destruct (nth_error m (q - List.length pre)) as [c|] eqn:E.
  - rewrite forallb_forall in Hdig.
    cbn [lacks].
    rewrite (isdecimal_is_word c (Hdig c (nth_error_In _ _ E))).
    now rewrite andb_false_r.
  - apply nth_error_None in E. lia.
Qed.

Lemma no_run_at_end (text : str) (p : nat) :
  (List.length text <= p)%nat -> word_bounded_run text p = false.
Proof.
  intros Hp.
  destruct (word_bounded_run text p) eqn:W; [|reflexivity].
  unfold word_bounded_run in W. split_andb.
  match goal with
  | D : digits_at _ _ _ = true |- _ =>
      rewrite digits_at_iff in D;
      destruct (D 0%nat ltac:(lia)) as (c & Hc & _)
  end.
  assert (p + 0 < List.length text)%nat
    by (apply nth_error_Some; congruence).
  lia.
Qed.

(** What the loop collects from a cursor on: the runs at or after it, each
    with its thirteen characters. *)
Lemma scan_spec (fuel : nat) :
  forall (pre rest : str) (p : nat) (m : str),
    (List.length rest < fuel)%nat ->
    In (p, m) (scan fuel (List.length pre) (prev_after pre None) rest) <->
    (List.length pre <= p)%nat /\
    word_bounded_run (pre ++ rest) p = true /\
    m = candidate (pre ++ rest) p.
Proof.
  induction fuel as [|fuel IH]; intros pre rest p m Hfuel; [lia|].
  cbn [scan].
  destruct (match_here (prev_after pre None) rest) as [[m0 rest']|] eqn:M.
  - destruct (match_here_run _ _ _ _ M) as (-> & Hlen & Hdig & W & C).
    rewrite <- length_app, <- prev_after_app. cbn [In].
    rewrite length_app in Hfuel.
    rewrite (IH (pre ++ m0) rest' p m) by lia.
    rewrite <- app_assoc, length_app. split.
    + intros [[= <- <-] | (Hp & Hw & Hm)]; [auto | repeat split; auto; lia].
    + intros (Hp & Hw & ->).
      destruct (Nat.eq_dec p (List.length pre)) as [-> | Hne];
        [left; now rewrite C|].
      right. repeat split; trivial.
      destruct (le_lt_dec (List.length pre + List.length m0) p); trivial.
      rewrite (no_run_inside pre m0 rest' p) in Hw by (trivial; lia).
      discriminate.
  - apply match_here_no_run in M.
    destruct rest as [|c rest'].
    + cbn [In]. split; [contradiction|].
      intros (Hp & Hw & _).
      rewrite no_run_at_end in Hw; [discriminate|].
      rewrite length_app. cbn. lia.
    + replace (S (List.length pre)) with (List.length (pre ++ [c]))
        by (rewrite length_app; cbn; lia).
      rewrite <- (prev_after_snoc pre c None).
      cbn [List.length] in Hfuel.
      rewrite (IH (pre ++ [c]) rest' p m) by lia.
      rewrite <- app_assoc, length_app. cbn [app List.length]. split.
      * intros (Hp & Hw & Hm). repeat split; trivial. lia.
      * intros (Hp & Hw & Hm). repeat split; trivial.
        destruct (Nat.eq_dec p (List.length pre)) as [-> | Hne]; [|lia].
        congruence.
Qed.

(** The loop's first find is the leftmost run. *)
Lemma scan_head (fuel : nat) :
  forall (pre rest : str) (p : nat) (m : str) (found : list (nat * str)),
    scan fuel (List.length pre) (prev_after pre None) rest
    = (p, m) :: found ->
    forall q, (List.length pre <= q < p)%nat ->
              word_bounded_run (pre ++ rest) q = false.
Proof.
  induction fuel as [|fuel IH]; intros pre rest p m found; [discriminate|].
  cbn [scan].
  destruct (match_here (prev_after pre None) rest) as [[m0 rest']|] eqn:M.
  - intros [= <- _ _] q Hq. lia.
  - apply match_here_no_run in M.
    destruct rest as [|c rest']; [discriminate|].
    replace (S (List.length pre)) with (List.length (pre ++ [c]))
      by (rewrite length_app; cbn; lia).
    rewrite <- (prev_after_snoc pre c None).
    intros H q Hq.
    destruct (Nat.eq_dec q (List.length pre)) as [-> | Hne]; [exact M|].
    specialize (IH _ _ _ _ _ H q).
    rewrite <- app_assoc, length_app in IH. cbn [app List.length] in IH.
    apply IH. lia.
Qed.

(** Fuel above the length of the text ahead is never used up: any two such
    amounts give the same list. *)
Lemma scan_fuel (fuel1 : nat) :
  forall (fuel2 pos : nat) (prev : option char) (rest : str),
    (List.length rest < fuel1)%nat -> (List.length rest < fuel2)%nat ->
    scan fuel1 pos prev rest = scan fuel2 pos prev rest.
Proof.
  induction fuel1 as [|fuel1 IH]; intros fuel2 pos prev rest H1 H2; [lia|].
  destruct fuel2 as [|fuel2]; [lia|]. cbn [scan].
  destruct (match_here prev rest) as [[m rest']|] eqn:M.
  - apply match_here_iff in M as (-> & Hlen & _).
    rewrite length_app in H1, H2. f_equal. apply IH; lia.
  - destruct rest as [|c rest']; [reflexivity|].
    cbn [List.length] in H1, H2. apply IH; lia.
Qed.

Lemma finditer_spec (text : str) (p : nat) (m : str) :
  In (p, m) (finditer text) <->
  word_bounded_run text p = true /\ m = candidate text p.
Proof.
  unfold finditer.
  rewrite (scan_spec (S (List.length text)) [] text p m) by lia.
  cbn [List.length app]. intuition lia.
Qed.

Lemma finditer_nil (text : str) :
  (forall p, word_bounded_run text p = false) -> finditer text = [].
Proof.
  intros H. destruct (finditer text) as [|[p m] found] eqn:E; [reflexivity|].
  assert (Hin : In (p, m) (finditer text)) by (rewrite E; now left).
  apply finditer_spec in Hin as [Hw _]. now rewrite H in Hw.
Qed.

Lemma finditer_leftmost (text : str) (p : nat) :
  word_bounded_run text p = true ->
  (forall q, (q < p)%nat -> word_bounded_run text q = false) ->
  exists found, finditer text = (p, candidate text p) :: found.
Proof.
  intros Hw Hleft.
  assert (Hin : In (p, candidate text p) (finditer text))
    by now apply finditer_spec.
  destruct (finditer text) as [|[p0 m0] found] eqn:E; [contradiction|].
  exists found.
  assert (Hin0 : In (p0, m0) (finditer text)) by (rewrite E; now left).
  apply finditer_spec in Hin0 as [Hw0 ->].
  assert (Hhead : forall q, (q < p0)%nat -> word_bounded_run text q = false).
  { intros q Hq.
    apply (scan_head _ [] text p0 (candidate text p0) found E q).
    cbn. lia. }
  destruct (lt_eq_lt_dec p p0) as [[Hlt | ->] | Hgt]; [|reflexivity|].
  - rewrite (Hhead p Hlt) in Hw. discriminate.
  - rewrite (Hleft p0 Hgt) in Hw0. discriminate.
Qed.

Lemma finditer_head (text : str) (p : nat) (m : str)
  (found : list (nat * str)) :
  finditer text = (p, m) :: found ->
  word_bounded_run text p = true /\ m = candidate text p /\
  forall q, (q < p)%nat -> word_bounded_run text q = false.
Proof.
  intros E.
  assert (Hin : In (p, m) (finditer text)) by (rewrite E; now left).
  apply finditer_spec in Hin as [Hw Hm]. repeat split; trivial.
  intros q Hq. apply (scan_head _ [] text p m found E q). cbn. lia.
Qed.

(** A run's candidate: thirteen decimal digits. *)
Lemma candidate_digits (text : str) (p : nat) :
  word_bounded_run text p = true ->
  List.length (candidate text p) = 13%nat /\
  forallb isdecimal (candidate text p) = true.
Proof.
  intros W. unfold word_bounded_run in W. split_andb.
  match goal with
  | H : digits_at _ _ _ = true |- _ => rename H into D
  end.
  destruct (digits_at_split _ _ _ D) as (rest' & Htext & Hpre & Hlen).
  split; [exact Hlen|].
  assert (E : digits_at isdecimal
                (firstn p text ++ candidate text p ++ rest')
                (List.length (firstn p text)) = true)
    by (rewrite <- Htext, Hpre; exact D).
  now rewrite digits_at_app in E.
Qed.

(** *** The Identifier Locator *)

Lemma findall_in (text m : str) :
  In m (findall text) <->
  exists pos, word_bounded_run text pos = true /\ m = candidate text pos.
Proof.
  unfold findall. rewrite in_map_iff. split.
  - intros ([p m'] & <- & Hin). exists p. now apply finditer_spec.
  - intros (p & Hw & ->). exists (p, candidate text p).
    split; [reflexivity|]. now apply finditer_spec.
Qed.

Lemma word_bounded_maximal (text : str) (pos : nat) :
  word_bounded_run text pos = true ->
  maximal_digit_run isdecimal text pos = true.
Proof.
  unfold word_bounded_run, maximal_digit_run. intros W.
  apply andb_prop in W as [W Ha]. apply andb_prop in W as [Hd Hb].
  now rewrite Hd, (lacks_word_decimal _ Hb), (lacks_word_decimal _ Ha).
Qed.

(** C3, as amended: the matches of the Identifier Locator are exactly the
    runs of thirteen consecutive decimal digits that have, on each side, an
    end of the text or a character that is no word character; a word
    character is what the pattern's [\w] class holds, that is the
    underscore and every alphanumeric character: the letters, the decimal
    digits and every other character with a digit or numeric value, such
    as a superscript two or a vulgar fraction.  Each match is returned with
    its thirteen characters.  In particular no match has a digit next to
    it: thirteen digits inside a longer unbroken digit run are never a
    candidate. *)
Theorem findall_word_bounded_runs (text : str) :
  (forall pos m,
      In (pos, m) (finditer text) <->
      word_bounded_run text pos = true /\ m = candidate text pos) /\
  (forall m,
      In m (findall text) <->
      exists pos, word_bounded_run text pos = true /\ m = candidate text pos)
  /\
  (forall pos m,
      In (pos, m) (finditer text) ->
      maximal_digit_run isdecimal text pos = true).
Proof.
  split; [|split].
  - intros pos m. apply finditer_spec.
  - intros m. apply findall_in.
  - intros pos m Hin. apply finditer_spec in Hin as [W _].
    now apply word_bounded_maximal.
Qed.

Lemma findall_word_bounded_runs_witness :
  maximal_digit_run isdecimal (lit "EMSO: 0101006500006.") 6 = true.
Proof.
  apply (findall_word_bounded_runs (lit "EMSO: 0101006500006."))
    with (m := lit "0101006500006").
  vm_compute. now left.
Defined.

(** In "x1234567890123" the thirteen digits are a maximal run, bounded by a
    non-digit and by the end of the text, and the locator finds nothing:
    the letter before them is a word character. *)
Lemma letter_bounded_run_not_matched :
  maximal_digit_run is_ascii_digit (lit "x1234567890123") 1 = true /\
  maximal_digit_run isdecimal (lit "x1234567890123") 1 = true /\
  findall (lit "x1234567890123") = [] /\
  find_valid_emso (lit "x1234567890123")
  = Ok [VNone; VBool false; VStr not_found_message].
Proof. vm_compute. auto. Qed.

Lemma validate_emso_candidate (text : str) (pos : nat) :
  word_bounded_run text pos = true ->
  validate_emso (candidate text pos)
  = Ok (spec_control (candidate text pos) =? digit_at (candidate text pos) 12).
Proof.
  intros W. destruct (candidate_digits text pos W) as [Hlen Hdig].
  rewrite <- (app_nil_r (candidate text pos)) at 1.
  now apply validate_emso_eval.
Qed.

Lemma find_valid_emso_found (text : str) (pos : nat) (m : str)
  (found : list (nat * str)) :
  finditer text = (pos, m) :: found ->
  find_valid_emso text
  = Ok [VStr m; VBool (spec_control m =? digit_at m 12)].
Proof.
  intros E. destruct (finditer_head _ _ _ _ E) as (W & -> & _).
  unfold find_valid_emso, findall. rewrite E. cbn [map snd].
  now rewrite validate_emso_candidate.
Qed.

Lemma find_valid_emso_not_found (text : str) :
  (forall pos, word_bounded_run text pos = false) ->
  find_valid_emso text = Ok [VNone; VBool false; VStr not_found_message].
Proof.
  intros H. unfold find_valid_emso, findall.
  now rewrite (finditer_nil text H).
Qed.

(** C6, as amended: when the text has a run the locator's pattern admits
    (thirteen consecutive decimal digits with, on each side, an end of the
    text or a character that is no word character), the locator returns
    the leftmost of these runs, paired with the validator's verdict on it;
    nothing behind it has a say, whatever the verdict. *)
Theorem find_valid_emso_leftmost (text : str) :
  (exists p, word_bounded_run text p = true) ->
  exists pos verdict,
    word_bounded_run text pos = true /\
    (forall q, (q < pos)%nat -> word_bounded_run text q = false) /\
    validate_emso (candidate text pos) = Ok verdict /\
    find_valid_emso text = Ok [VStr (candidate text pos); VBool verdict].
Proof.
  intros (p & Hp).
  assert (Hin : In (p, candidate text p) (finditer text))
    by now apply finditer_spec.
  destruct (finditer text) as [|[pos m] found] eqn:E; [contradiction|].
  destruct (finditer_head _ _ _ _ E) as (W & -> & Hleft).
  exists pos, (spec_control (candidate text pos)
               =? digit_at (candidate text pos) 12).
  repeat split; trivial.
  - now apply validate_emso_candidate.
  - now apply find_valid_emso_found with pos found.
Qed.

(** The first run fails validation, the second would pass: the first is
    what is reported. *)
Lemma find_valid_emso_leftmost_witness :
  exists pos verdict,
    word_bounded_run (lit "1234567890123 0101006500006") pos = true /\
    (forall q, (q < pos)%nat ->
               word_bounded_run (lit "1234567890123 0101006500006") q = false)
    /\
    validate_emso (candidate (lit "1234567890123 0101006500006") pos)
    = Ok verdict /\
    find_valid_emso (lit "1234567890123 0101006500006")
    = Ok [VStr (candidate (lit "1234567890123 0101006500006") pos);
          VBool verdict].
Proof.
  apply (find_valid_emso_leftmost (lit "1234567890123 0101006500006")).
  exists 14%nat. vm_compute. reflexivity.
Defined.

(** In "x1234567890123 0101006500006" the leftmost maximal run of thirteen
    digits bounded by non-digits starts at position 1; the locator passes
    it over, for the letter before it, and returns the run behind it. *)
Lemma leftmost_digit_run_not_returned :
  maximal_digit_run is_ascii_digit (lit "x1234567890123 0101006500006") 1
  = true /\
  maximal_digit_run isdecimal (lit "x1234567890123 0101006500006") 1
  = true /\
  maximal_digit_run is_ascii_digit (lit "x1234567890123 0101006500006") 0
  = false /\
  candidate (lit "x1234567890123 0101006500006") 1 = lit "1234567890123" /\
  find_valid_emso (lit "x1234567890123 0101006500006")
  = Ok [VStr (lit "0101006500006"); VBool true].
Proof. vm_compute. auto 6. Qed.

(** A character with a numeric value only, here the vulgar fraction one
    half (U+00BD), is a word character although it is neither a letter, a
    decimal digit nor the underscore: a run behind it is not matched. *)
Lemma numeric_bounded_run_not_matched :
  isalpha 189%N = false /\ isdecimal 189%N = false /\
  is_word 189%N = true /\
  findall (189%N :: lit "1234567890123") = [].
Proof. vm_compute. auto. Qed.

Lemma later_candidate_not_inspected :
  validate_emso (lit "0101006500006") = Ok true /\
  find_valid_emso (lit "1234567890123 0101006500006")
  = Ok [VStr (lit "1234567890123"); VBool false].
Proof. vm_compute. auto. Qed.

Lemma range_offset_none (t : list (N * N)) (c bound : N) :
  forallb (fun r => (bound <=? fst r)%N) t = true -> (c < bound)%N ->
  range_offset t c = None.
Proof.
  intros Ht Hc. induction t as [|[lo hi] t IH]; [reflexivity|].
  cbn [forallb fst] in Ht. apply andb_prop in Ht as [Hlo Ht].
  apply N.leb_le in Hlo. cbn [range_offset].
  replace (lo <=? c)%N with false by (symmetry; apply N.leb_gt; lia).
  cbn [andb]. now apply IH.
Qed.

Lemma isdecimal_ascii (c : char) :
  isdecimal c = true -> is_ascii c = true -> is_ascii_digit c = true.
Proof.
  unfold isdecimal, to_decimal, is_ascii, is_ascii_digit.
  intros Hd Hc. apply N.ltb_lt in Hc.
  change decimal_ranges with ((48, 57)%N :: tl decimal_ranges) in Hd.
  cbn [range_offset] in Hd.
  destruct ((48 <=? c) && (c <=? 57))%N; [reflexivity|].
  rewrite (range_offset_none (tl decimal_ranges) c 128) in Hd;
    [discriminate | vm_compute; reflexivity | exact Hc].
Qed.

Lemma in_firstn {A} (n : nat) (xs : list A) (x : A) :
  In x (firstn n xs) -> In x xs.
Proof.
  intros H. rewrite <- (firstn_skipn n xs). apply in_or_app. now left.
Qed.

Lemma in_skipn {A} (n : nat) (xs : list A) (x : A) :
  In x (skipn n xs) -> In x xs.
Proof.
  intros H. rewrite <- (firstn_skipn n xs). apply in_or_app. now right.
Qed.

Lemma candidate_incl (text : str) (pos : nat) (c : char) :
  In c (candidate text pos) -> In c text.
Proof.
  unfold candidate. intros H.
  apply (in_skipn pos), (in_firstn 13), H.
Qed.

(** C8, as amended: every candidate the Identifier Locator returns is
    exactly thirteen characters long and each of its characters is a
    decimal digit, that is a character of Unicode category Nd, the class
    the pattern's digit item accepts; in a text of ASCII characters those
    are the digits 0-9. *)
Theorem find_valid_emso_candidate_digits (text s : str)
  (others : list value) :
  find_valid_emso text = Ok (VStr s :: others) ->
  List.length s = 13%nat /\
  forallb isdecimal s = true /\
  (forallb is_ascii text = true -> forallb is_ascii_digit s = true).
Proof.
  intros H.
  destruct (finditer text) as [|[pos m] found] eqn:E.
  - unfold find_valid_emso, findall in H. rewrite E in H. discriminate.
  - rewrite (find_valid_emso_found _ _ _ _ E) in H. injection H as <- _.
    destruct (finditer_head _ _ _ _ E) as (W & -> & _).
    destruct (candidate_digits text pos W) as [Hlen Hdig].
    repeat split; trivial.
    intros Hascii. rewrite forallb_forall in *.
    intros c Hc. apply isdecimal_ascii; [now apply Hdig|].
    apply Hascii. now apply candidate_incl with pos.
Qed.

Lemma find_valid_emso_candidate_digits_witness :
  List.length (lit "0101006500006") = 13%nat /\
  forallb isdecimal (lit "0101006500006") = true /\
  (forallb is_ascii (lit "EMSO: 0101006500006.") = true ->
   forallb is_ascii_digit (lit "0101006500006") = true).
Proof.
  apply (find_valid_emso_candidate_digits
           (lit "EMSO: 0101006500006.") (lit "0101006500006")
           [VBool true]).
  vm_compute. reflexivity.
Defined.

(** Thirteen Arabic-Indic digits are returned as a candidate, and even
    pass the checksum; none of them is an ASCII digit. *)
Lemma non_ascii_candidate_returned :
  find_valid_emso arabic_indic_emso
  = Ok [VStr arabic_indic_emso; VBool true] /\
  List.length arabic_indic_emso = 13%nat /\
  forallb is_ascii_digit arabic_indic_emso = false /\
  existsb is_ascii_digit arabic_indic_emso = false.
Proof. vm_compute. auto. Qed.

(** *** The Document Processor *)

Section ProcessorFacts.

Variable extract_text_from_pdf : str -> str.

Lemma process_pdf_empty (pdf_path : str) :
  extract_text_from_pdf pdf_path = [] ->
  process_pdf extract_text_from_pdf pdf_path = Ok None.
Proof. unfold process_pdf. now intros ->. Qed.

Lemma process_pdf_found (pdf_path : str) (pos : nat) (m : str)
  (found : list (nat * str)) :
  finditer (extract_text_from_pdf pdf_path) = (pos, m) :: found ->
  process_pdf extract_text_from_pdf pdf_path
  = Ok (Some {| fileName := basename pdf_path;
                stevilkaDokumenta :=
                  of_option (get_stevilka (extract_text_from_pdf pdf_path));
                emso := VStr m;
                emsoIsValid := VBool (spec_control m =? digit_at m 12) |}).
Proof.
  intros E. unfold process_pdf.
  rewrite (find_valid_emso_found _ _ _ _ E).
  destruct (extract_text_from_pdf pdf_path) as [|c text] eqn:T;
    [discriminate E|].
  reflexivity.
Qed.

Lemma process_pdf_not_found (pdf_path : str) :
  extract_text_from_pdf pdf_path <> [] ->
  (forall pos,
      word_bounded_run (extract_text_from_pdf pdf_path) pos = false) ->
  process_pdf extract_text_from_pdf pdf_path = Raise ValueError.
Proof.
  intros Hne Hnone. unfold process_pdf.
  rewrite (find_valid_emso_not_found _ Hnone).
  destruct (extract_text_from_pdf pdf_path); [congruence | reflexivity].
Qed.

(** The three ways a document can go. *)
Lemma process_pdf_cases (pdf_path : str) :
  (extract_text_from_pdf pdf_path = [] /\
   process_pdf extract_text_from_pdf pdf_path = Ok None) \/
  (exists pos m found,
      finditer (extract_text_from_pdf pdf_path) = (pos, m) :: found /\
      exists record,
        process_pdf extract_text_from_pdf pdf_path = Ok (Some record) /\
        fileName record = basename pdf_path /\
        stevilkaDokumenta record
        = of_option (get_stevilka (extract_text_from_pdf pdf_path)) /\
        emso record = VStr m) \/
  (extract_text_from_pdf pdf_path <> [] /\
   finditer (extract_text_from_pdf pdf_path) = [] /\
   process_pdf extract_text_from_pdf pdf_path = Raise ValueError).
Proof.
  destruct (finditer (extract_text_from_pdf pdf_path))
    as [|[pos m] found] eqn:E.
  - destruct (extract_text_from_pdf pdf_path) as [|c text] eqn:T.
    + left. split; [reflexivity|]. now apply process_pdf_empty.
    + right. right. split; [discriminate|]. split; [reflexivity|].
      unfold process_pdf, find_valid_emso, findall. rewrite T, E.
      reflexivity.
  - right. left. exists pos, m, found. split; [reflexivity|].
    eexists. split; [exact (process_pdf_found pdf_path pos m found E)|].
    repeat split.
Qed.

End ProcessorFacts.

(** C1: on a text without a thirteen-digit run the Identifier Locator
    signals "not found" (no identifier, validity false) without raising; the
    Document Processor, however, produces no record from that answer:
    unpacking its three components into two names raises [ValueError]. *)
Theorem process_pdf_not_found_raises :
  find_valid_emso (lit "Racun brez maticne stevilke")
  = Ok [VNone; VBool false; VStr not_found_message] /\
  get_stevilka (lit "Racun brez maticne stevilke") = None /\
  process_pdf (fun _ => lit "Racun brez maticne stevilke") (lit "racun.pdf")
  = Raise ValueError.
Proof. vm_compute. auto. Qed.

(** C9: a document whose extracted text is not empty and holds a reference
    but no identifier gets no record: the Document Processor raises
    [ValueError] instead of returning one with the identifier absent; on
    the empty text it returns "no result", and with an identifier in the
    text the record. *)
Theorem process_pdf_raises_on_text_without_identifier :
  get_stevilka (key ++ lit " AB-123/2024" ++ newline ++ lit "brez stevilke")
  = Some (lit "AB-123/2024") /\
  process_pdf
    (fun _ => key ++ lit " AB-123/2024" ++ newline ++ lit "brez stevilke")
    (lit "vhod/dopis.pdf")
  = Raise ValueError /\
  process_pdf (fun _ => []) (lit "vhod/dopis.pdf") = Ok None /\
  process_pdf
    (fun _ => key ++ lit " AB-123/2024" ++ newline
              ++ lit "foo 1234567890123 bar")
    (lit "vhod/dopis.pdf")
  = Ok (Some {| fileName := lit "dopis.pdf";
                stevilkaDokumenta := VStr (lit "AB-123/2024");
                emso := VStr (lit "1234567890123");
                emsoIsValid := VBool false |}).
Proof. vm_compute. auto. Qed.

(** *** Searching and trimming text *)

Lemma len_app {A} (a b : list A) : len (a ++ b) = len a + len b.
Proof. unfold len. rewrite length_app. lia. Qed.

Lemma len_nonneg {A} (a : list A) : 0 <= len a.
Proof. unfold len. lia. Qed.

Lemma char_eqb_eq (a b : char) : char_eqb a b = true <-> a = b.
Proof. apply N.eqb_eq. Qed.

Lemma startswith_iff (text sub : str) :
  startswith text sub = true <-> exists post, text = sub ++ post.
Proof.
  revert text. induction sub as [|a sub IH]; intros text.
  - destruct text; cbn; split; eauto.
  - destruct text as [|b text]; cbn [startswith].
    + split; [discriminate | intros (post & [=])].
    + rewrite andb_true_iff, char_eqb_eq, IH. split.
      * intros (-> & post & ->). now exists post.
      * intros (post & [= -> ->]). eauto.
Qed.

Lemma find_from_eq (text sub : str) (i : Z) :
  find_from text sub i =
  if startswith text sub then i
  else match text with
       | [] => -1
       | _ :: text' => find_from text' sub (i + 1)
       end.
Proof. destruct text; reflexivity. Qed.

(** Without an occurrence the search answers -1. *)
Lemma find_from_none (text sub : str) (i : Z) :
  (forall pre, ~ occurs_after text sub pre) -> find_from text sub i = -1.
Proof.
  revert i. induction text as [|c text IH]; intros i Hnone;
    rewrite find_from_eq;
    (destruct (startswith _ sub) eqn:S;
     [apply startswith_iff in S as (post & S);
      exfalso; apply (Hnone []); now exists post|]).
  - reflexivity.
  - apply IH. intros pre (post & ->).
    apply (Hnone (c :: pre)). now exists post.
Qed.

(** With one, it answers the offset of the leftmost. *)
Lemma find_from_first (sub pre post : str) (i : Z) :
  (forall pre', occurs_after (pre ++ sub ++ post) sub pre' ->
                (List.length pre <= List.length pre')%nat) ->
  find_from (pre ++ sub ++ post) sub i = i + len pre.
Proof.
  revert i. induction pre as [|c pre IH]; intros i Hfirst;
    rewrite find_from_eq.
  - cbn [app]. replace (startswith (sub ++ post) sub) with true
      by (symmetry; apply startswith_iff; eauto).
    unfold len. cbn. lia.
  - destruct (startswith _ sub) eqn:S.
    + apply startswith_iff in S as (post' & S).
      specialize (Hfirst [] (ex_intro _ post' S)). cbn in Hfirst. lia.
    + cbn [app]. rewrite IH.
      * unfold len. cbn [List.length]. lia.
      * intros pre' (post' & E).
        assert (H : occurs_after ((c :: pre) ++ sub ++ post) sub (c :: pre'))
          by (exists post'; cbn [app]; now rewrite E).
        apply Hfirst in H. cbn [List.length] in H. lia.
Qed.

(** The search for the newline, whatever it answers. *)
Lemma find_from_newline (s : str) (i r : Z) :
  find_from s newline i = r ->
  (r = -1 /\ ~ In 10%N s) \/
  (i <= r < i + len s /\ ~ In 10%N (firstn (Z.to_nat (r - i)) s)).
Proof.
  revert i r. induction s as [|c s IH]; intros i r; rewrite find_from_eq.
  - cbn. intros <-. left. auto.
  - cbn [startswith newline]. destruct (char_eqb 10%N c) eqn:C.
    + destruct s; cbn [startswith andb]; intros <-; right;
        rewrite Z.sub_diag; unfold len; cbn [List.length Z.to_nat firstn];
        (split; [lia | auto]).
    + cbn [andb]. intros H. apply IH in H.
      assert (Hc : 10%N <> c)
        by (intros E; apply char_eqb_eq in E; congruence).
      destruct H as [[-> Hs] | [Hi Hs]].
      * left. split; [reflexivity|]. intros [?|?]; auto.
      * right. unfold len in *. cbn [List.length]. split; [lia|].
        replace (Z.to_nat (r - i)) with (S (Z.to_nat (r - (i + 1)))) by lia.
        cbn [firstn]. intros [?|?]; auto.
Qed.

Lemma find_from_range (text sub : str) (i r : Z) :
  find_from text sub i = r -> r = -1 \/ i <= r.
Proof.
  revert i r. induction text as [|c text IH]; intros i r;
    rewrite find_from_eq; destruct (startswith _ sub);
    try (intros <-; auto; right; lia).
  intros H. apply IH in H. lia.
Qed.

Lemma find_at (text sub : str) (start : Z) :
  0 <= start <= len text ->
  find text sub start = find_from (skipn (Z.to_nat start) text) sub start.
Proof.
  intros H. unfold find, adjust_start.
  destruct (Z.ltb_spec start 0); [lia|].
  destruct (Z.ltb_spec (len text) start); [lia | reflexivity].
Qed.

Lemma slice_at (text : str) (start stop : Z) :
  0 <= start <= len text -> 0 <= stop <= len text ->
  slice text start stop
  = firstn (Z.to_nat (stop - start)) (skipn (Z.to_nat start) text).
Proof.
  intros Hs He. unfold slice, adjust_start.
  destruct (Z.ltb_spec start 0); [lia|].
  destruct (Z.ltb_spec stop 0); [lia|].
  now rewrite !Z.min_r by lia.
Qed.

Lemma skipn_len_app (a b : str) : skipn (Z.to_nat (len a)) (a ++ b) = b.
Proof.
  unfold len. rewrite Nat2Z.id, skipn_app, skipn_all, Nat.sub_diag.
  reflexivity.
Qed.

Lemma firstn_len_app (a b : str) : firstn (Z.to_nat (len a)) (a ++ b) = a.
Proof.
  unfold len. rewrite Nat2Z.id, firstn_app, firstn_all, Nat.sub_diag.
  cbn [firstn]. apply app_nil_r.
Qed.

Lemma dropwhile_split {A} (p : A -> bool) (xs : list A) :
  exists dropped, xs = dropped ++ dropwhile p xs /\
                  forallb p dropped = true.
Proof.
  induction xs as [|x xs (dropped & IH & Hd)]; [now exists []|].
  cbn [dropwhile]. destruct (p x) eqn:Hx.
  - exists (x :: dropped). cbn. rewrite Hx, Hd. now rewrite <- IH.
  - now exists [].
Qed.

Lemma dropwhile_head (p : char -> bool) (xs : str) :
  lacks p (hd_error (dropwhile p xs)) = true.
Proof.
  induction xs as [|x xs IH]; [reflexivity|].
  cbn [dropwhile]. destruct (p x) eqn:Hx; [exact IH|].
  cbn. now rewrite Hx.
Qed.

Lemma dropwhile_id (p : char -> bool) (xs : str) :
  lacks p (hd_error xs) = true -> dropwhile p xs = xs.
Proof.
  destruct xs as [|x xs]; [reflexivity|]. cbn.
  now destruct (p x).
Qed.

Lemma dropwhile_snoc (p : char -> bool) (xs : str) (x : char) :
  p x = false -> dropwhile p (xs ++ [x]) = dropwhile p xs ++ [x].
Proof.
  intros Hx. induction xs as [|y xs IH]; cbn; [now rewrite Hx|].
  now destruct (p y).
Qed.

Lemma forallb_rev {A} (p : A -> bool) (xs : list A) :
  forallb p (rev xs) = forallb p xs.
Proof.
  apply eq_true_iff_eq. rewrite !forallb_forall.
  split; intros H x Hx; apply H; now apply in_rev in Hx || apply in_rev.
Qed.

Lemma rstrip_keeps_head (s : str) :
  lacks isspace (hd_error s) = true ->
  lacks isspace (hd_error (rstrip s)) = true.
Proof.
  destruct s as [|x s]; [reflexivity|]. cbn [hd_error lacks].
  intros Hx. apply negb_true_iff in Hx. unfold rstrip. cbn [rev].
  rewrite (dropwhile_snoc _ _ _ Hx), rev_app_distr. cbn.
  now rewrite Hx.
Qed.

Lemma strip_trimmed (s : str) : trimmed (strip s).
Proof.
  split.
  - apply rstrip_keeps_head, dropwhile_head.
  - unfold strip, rstrip. rewrite rev_involutive. apply dropwhile_head.
Qed.

Lemma strip_id (s : str) : trimmed s -> strip s = s.
Proof.
  intros [Hhd Hlast]. unfold strip, lstrip, rstrip.
  rewrite (dropwhile_id _ s Hhd), (dropwhile_id _ (rev s) Hlast).
  apply rev_involutive.
Qed.

(** Trimming removes blanks at both ends and nothing else. *)
Lemma strip_split (s : str) :
  exists lead trail, s = lead ++ strip s ++ trail /\
                     forallb isspace lead = true /\
                     forallb isspace trail = true.
Proof.
  destruct (dropwhile_split isspace s) as (lead & Hs & Hlead).
  destruct (dropwhile_split isspace (rev (lstrip s))) as (back & Hr & Hback).
  exists lead, (rev back). repeat split; trivial.
  - rewrite Hs at 1. f_equal. unfold strip, rstrip.
    rewrite <- rev_app_distr, <- Hr. now rewrite rev_involutive.
  - now rewrite forallb_rev.
Qed.

Lemma strip_incl (s : str) (c : char) : In c (strip s) -> In c s.
Proof.
  intros H. destruct (strip_split s) as (lead & trail & E & _).
  rewrite E. apply in_or_app. right. apply in_or_app. now left.
Qed.

(** *** The Reference Locator *)

Ltac len_lia :=
  rewrite ?len_app in *; unfold len in *; cbn [List.length] in *; lia.

Lemma newline_first (line t : str) :
  ~ In 10%N line ->
  forall pre', occurs_after (line ++ newline ++ t) newline pre' ->
               (List.length line <= List.length pre')%nat.
Proof.
  intros Hnl pre' (post & E).
  destruct (le_lt_dec (List.length line) (List.length pre')); trivial.
  exfalso. apply Hnl.
  assert (H : nth_error (line ++ newline ++ t) (List.length pre')
              = Some 10%N)
    by (rewrite E, nth_error_app2, Nat.sub_diag; [reflexivity | lia]).
  rewrite nth_error_app1 in H by lia.
  now apply nth_error_In in H.
Qed.

Lemma newline_absent (line : str) :
  ~ In 10%N line -> forall pre', ~ occurs_after line newline pre'.
Proof.
  intros Hnl pre' (post & E). apply Hnl. rewrite E.
  apply in_or_app. right. now left.
Qed.

(** The slice cut for the value holds no newline. *)
Lemma line_slice_no_newline (text : str) (start : Z) :
  0 <= start ->
  ~ In 10%N
      (slice text start
         (if find text newline start =? -1 then len text
          else find text newline start)).
Proof.
  intros Hstart. pose proof (len_nonneg text) as Hn.
  destruct (Z.le_gt_cases start (len text)) as [Hle | Hgt].
  - rewrite find_at by lia.
    remember (find_from (skipn (Z.to_nat start) text) newline start) as r
      eqn:Hr.
    symmetry in Hr. apply find_from_newline in Hr.
    assert (Hlen : len (skipn (Z.to_nat start) text) = len text - start)
      by (unfold len in *; rewrite length_skipn; lia).
    destruct Hr as [[-> Hs] | [Hi Hs]].
    + rewrite Z.eqb_refl, slice_at by lia.
      intros Hin. now apply in_firstn in Hin.
    + destruct (Z.eqb_spec r (-1)); [lia|].
      now rewrite slice_at by lia.
  - unfold find, slice, adjust_start.
    destruct (Z.ltb_spec start 0); [lia|].
    destruct (Z.ltb_spec (len text) start); [|lia].
    rewrite Z.eqb_refl. destruct (Z.ltb_spec (len text) 0); [lia|].
    rewrite Z.min_id, (Z.min_l (len text) start), Z.sub_diag by lia.
    cbn. auto.
Qed.

(** Every text either lacks the label or has a leftmost occurrence of it. *)
Lemma first_occurrence (text sub : str) :
  (forall pre, ~ occurs_after text sub pre) \/
  (exists pre, occurs_after text sub pre /\
               forall pre', occurs_after text sub pre' ->
                            (List.length pre <= List.length pre')%nat).
Proof.
  induction text as [|c text IH].
  - destruct (startswith [] sub) eqn:S.
    + right. exists []. split; [now apply startswith_iff|].
      intros pre' _. cbn. lia.
    + left. intros pre (post & E).
      destruct pre; [|discriminate E].
      assert (startswith [] sub = true)
        by (apply startswith_iff; now exists post).
      congruence.
  - destruct (startswith (c :: text) sub) eqn:S.
    + right. exists []. split; [now apply startswith_iff|].
      intros pre' _. cbn. lia.
    + assert (Hhead : forall post, c :: text <> sub ++ post).
      { intros post E.
        assert (startswith (c :: text) sub = true)
          by (apply startswith_iff; now exists post).
        congruence. }
      destruct IH as [Hnone | (pre & (post & E) & Hmin)].
      * left. intros [|c' pre'] (post & E); [now apply (Hhead post)|].
        injection E as <- E. apply (Hnone pre'). now exists post.
      * right. exists (c :: pre). split; [exists post; cbn; now rewrite E|].
        intros [|c' pre'] (post' & E'); [now apply Hhead in E'|].
        injection E' as <- E'. cbn [List.length].
        apply le_n_S, Hmin. now exists post'.
Qed.

(** Every text splits into its first line and what follows it. *)
Lemma first_line (rest : str) :
  exists line tail, rest = line ++ tail /\ ~ In 10%N line /\
                    (tail = [] \/ hd_error tail = Some 10%N).
Proof.
  induction rest as [|c rest (line & tail & E & Hnl & Htail)].
  - exists [], []. auto.
  - destruct (N.eq_dec c 10) as [-> | Hc].
    + exists [], (10%N :: rest). auto.
    + exists (c :: line), tail. split; [cbn; now rewrite E|].
      split; [|exact Htail]. intros [?|?]; auto.
Qed.

(** C7: the Reference Locator returns absent when the label does not occur
    in the text; otherwise it returns what stands between the end of the
    label's first occurrence and the next newline (or the end of the text
    when no newline follows), with the blanks at both ends removed, be the
    result empty or not. *)
Theorem get_stevilka_spec (text : str) :
  ((forall pre, ~ occurs_after text key pre) -> get_stevilka text = None) /\
  (forall pre line tail,
      text = pre ++ key ++ line ++ tail ->
      (forall pre', occurs_after text key pre' ->
                    (List.length pre <= List.length pre')%nat) ->
      ~ In 10%N line ->
      tail = [] \/ hd_error tail = Some 10%N ->
      get_stevilka text = Some (strip line) /\
      trimmed (strip line) /\
      exists lead trail,
        line = lead ++ strip line ++ trail /\
        forallb isspace lead = true /\ forallb isspace trail = true).
Proof.
  split.
  - intros Hnone. unfold get_stevilka.
    rewrite find_at by (pose proof (len_nonneg text); lia).
    cbn [Z.to_nat skipn]. now rewrite (find_from_none text key 0 Hnone).
  - intros pre line tail -> Hfirst Hnl Htail.
    split; [|split; [apply strip_trimmed | apply strip_split]].
    unfold get_stevilka.
    pose proof (len_nonneg pre) as Hpre.
    pose proof (len_nonneg key) as Hkey.
    pose proof (len_nonneg line) as Hline.
    pose proof (len_nonneg tail) as Htl.
    rewrite find_at by len_lia.
    cbn [Z.to_nat skipn]. rewrite (find_from_first key pre _ 0 Hfirst).
    destruct (Z.eqb_spec (0 + len pre) (-1)); [lia|].
    replace (0 + len pre + len key) with (len (pre ++ key))
      by len_lia.
    rewrite (app_assoc pre key).
    rewrite find_at by len_lia.
    rewrite skipn_len_app.
    destruct Htail as [-> | Hhd].
    + rewrite (find_from_none _ newline)
        by (rewrite app_nil_r; now apply newline_absent).
      rewrite Z.eqb_refl, slice_at by len_lia.
      rewrite skipn_len_app.
      replace (len ((pre ++ key) ++ line ++ []) - len (pre ++ key))
        with (len line) by len_lia.
      now rewrite firstn_len_app.
    + destruct tail as [|c t]; [discriminate|]. injection Hhd as ->.
      change (10%N :: t) with (newline ++ t).
      rewrite (find_from_first newline line t) by now apply newline_first.
      destruct (Z.eqb_spec (len (pre ++ key) + len line) (-1));
        [len_lia|].
      rewrite slice_at by len_lia.
      rewrite skipn_len_app.
      replace (len (pre ++ key) + len line - len (pre ++ key))
        with (len line) by lia.
      now rewrite firstn_len_app.
Qed.

Lemma get_stevilka_spec_witness :
  get_stevilka
    (lit "Dopis " ++ key ++ lit "  AB-123/2024 " ++ newline ++ key ++ lit "9")
  = Some (strip (lit "  AB-123/2024 ")).
Proof.
  apply (get_stevilka_spec
           (lit "Dopis " ++ key ++ lit "  AB-123/2024 " ++ newline
            ++ key ++ lit "9"))
    with (pre := lit "Dopis ") (tail := newline ++ key ++ lit "9").
  - reflexivity.
  - intros pre' (post & E).
    destruct pre' as [|c0 [|c1 [|c2 [|c3 [|c4 [|c5 pre']]]]]];
      solve [discriminate E | cbn; lia].
  - vm_compute. intuition discriminate.
  - right. reflexivity.
Defined.

(** The two cases of the Reference Locator's contract cover every text. *)
Lemma get_stevilka_cases (text : str) :
  (forall pre, ~ occurs_after text key pre) \/
  (exists pre line tail,
      text = pre ++ key ++ line ++ tail /\
      (forall pre', occurs_after text key pre' ->
                    (List.length pre <= List.length pre')%nat) /\
      ~ In 10%N line /\ (tail = [] \/ hd_error tail = Some 10%N)).
Proof.
  destruct (first_occurrence text key) as [Hnone | (pre & (post & E) & Hmin)];
    [now left|].
  right. destruct (first_line post) as (line & tail & -> & Hnl & Htail).
  now exists pre, line, tail.
Qed.

(** C10: a value the Reference Locator returns holds no newline character
    and has no blank at either end: trimming it again changes nothing. *)
Theorem get_stevilka_value_trimmed (text value : str) :
  get_stevilka text = Some value ->
  ~ In 10%N value /\ strip value = value /\ trimmed value.
Proof.
  unfold get_stevilka.
  destruct (Z.eqb_spec (find text key 0) (-1)) as [|Hfound]; [discriminate|].
  intros [= <-].
  assert (Hstart : 0 <= find text key 0 + len key).
  { pose proof (len_nonneg key). pose proof (len_nonneg text).
    rewrite find_at in * by lia.
    destruct (find_from_range (skipn (Z.to_nat 0) text) key 0 _ eq_refl)
      as [E | E]; [contradiction | lia]. }
  repeat split.
  - intros Hin. apply strip_incl in Hin.
    now apply (line_slice_no_newline text _ Hstart).
  - apply strip_id, strip_trimmed.
  - apply strip_trimmed.
  - apply strip_trimmed.
Qed.

Lemma get_stevilka_value_trimmed_witness :
  ~ In 10%N (lit "AB-123/2024") /\
  strip (lit "AB-123/2024") = lit "AB-123/2024" /\
  trimmed (lit "AB-123/2024").
Proof.
  apply (get_stevilka_value_trimmed
           (lit "Dopis " ++ key ++ lit "  AB-123/2024 " ++ newline
            ++ key ++ lit "9")).
  vm_compute. reflexivity.
Defined.

(** ** Further properties of the module *)

(** *** The validator on arbitrary text *)

Lemma digits_error_snoc (n : nat) :
  forall s : str,
    digits_error s (S n) =
    match digits_error s n with
    | Some e => Some e
    | None =>
        match nth_error s n with
        | None => Some IndexError
        | Some c => if isdecimal c then None else Some ValueError
        end
    end.
Proof.
  induction n as [|n IH]; intros s.
  - destruct s as [|c s]; [reflexivity|]. cbn.
    now destruct (isdecimal c).
  - destruct s as [|c s]; [reflexivity|].
    change (digits_error (c :: s) (S (S n)))
      with (if isdecimal c then digits_error s (S n) else Some ValueError).
    change (digits_error (c :: s) (S n))
      with (if isdecimal c then digits_error s n else Some ValueError).
    destruct (isdecimal c); [|reflexivity].
    rewrite IH. reflexivity.
Qed.

Lemma digits_error_none (n : nat) :
  forall s : str,
    digits_error s n = None <->
    (n <= List.length s)%nat /\ forallb isdecimal (firstn n s) = true.
Proof.
  induction n as [|n IH]; intros s.
  - cbn. split; [split; [lia | reflexivity] | reflexivity].
  - destruct s as [|c s]; cbn [digits_error firstn forallb List.length].
    + split; [discriminate | intros [H _]; lia].
    + destruct (isdecimal c); cbn [andb].
      * rewrite IH. split; intros [H1 H2]; split; trivial; lia.
      * split; [discriminate | intros [_ H]; discriminate].
Qed.

Lemma digits_error_index (n : nat) :
  forall s : str,
    digits_error s n = Some IndexError <->
    (List.length s < n)%nat /\ forallb isdecimal s = true.
Proof.
  induction n as [|n IH]; intros s.
  - cbn. split; [discriminate | intros [H _]; lia].
  - destruct s as [|c s]; cbn [digits_error forallb List.length].
    + split; [split; [lia | reflexivity] | reflexivity].
    + destruct (isdecimal c); cbn [andb].
      * rewrite IH. split; intros [H1 H2]; split; trivial; lia.
      * split; [discriminate | intros [_ H]; discriminate].
Qed.

Lemma digits_error_value (n : nat) :
  forall s : str,
    digits_error s n = Some ValueError <->
    exists i c, (i < n)%nat /\ nth_error s i = Some c /\
                isdecimal c = false /\
                forallb isdecimal (firstn i s) = true.
Proof.
  induction n as [|n IH]; intros s.
  - cbn. split; [discriminate | intros (i & c & H & _); lia].
  - destruct s as [|c s]; cbn [digits_error].
    + split; [discriminate|].
      intros (i & c & _ & H & _). destruct i; discriminate H.
    + destruct (isdecimal c) eqn:Hc.
      * rewrite IH. split.
        -- intros (i & c' & Hi & Hn & Hd & Hf).
           exists (S i), c'. cbn [nth_error firstn forallb].
           rewrite Hc. repeat split; trivial. lia.
        -- intros ([|i] & c' & Hi & Hn & Hd & Hf).
           ++ cbn in Hn. congruence.
           ++ cbn [nth_error firstn forallb] in Hn, Hf.
              rewrite Hc in Hf. exists i, c'. repeat split; trivial. lia.
      * split; [|reflexivity]. intros _.
        exists 0%nat, c. repeat split; trivial. lia.
Qed.

Lemma skipn_cons_nth {A} (xs : list A) (k : nat) (x : A) :
  nth_error xs k = Some x -> skipn k xs = x :: skipn (S k) xs.
Proof.
  revert xs. induction k as [|k IH]; intros [|y xs] H; try discriminate H.
  - now injection H as ->.
  - cbn [nth_error] in H. cbn [skipn]. rewrite (IH _ H). reflexivity.
Qed.

Lemma skipn_nil_nth {A} (xs : list A) (k : nat) :
  nth_error xs k = None -> skipn k xs = [].
Proof. intros H. apply skipn_all2. now apply nth_error_None. Qed.

Lemma weighted_digits (emso : str) (n : nat) :
  forall k, (k + n <= 12)%nat ->
    comprehension (weighted_digit emso) (seq k n) =
    match digits_error (skipn k emso) n with
    | Some e => Raise e
    | None =>
        Ok (map (fun i => digit_at emso i * nth i emso_factor_map 0)
              (seq k n))
    end.
Proof.
  induction n as [|n IH]; intros k Hk; [reflexivity|].
  cbn [seq comprehension map]. unfold weighted_digit at 1, getitem at 1.
  destruct (nth_error emso k) as [c|] eqn:E.
  - rewrite (skipn_cons_nth _ _ _ E). cbn [digits_error bind].
    unfold int_of_char, isdecimal.
    destruct (to_decimal c) as [d|] eqn:D; [|reflexivity].
    cbn [bind]. unfold getitem.
    destruct (nth_error emso_factor_map k) as [f|] eqn:F.
    + cbn [bind]. rewrite IH by lia.
      destruct (digits_error (skipn (S k) emso) n); [reflexivity|].
      cbn [bind]. unfold digit_at. rewrite E, D.
      now rewrite (nth_error_nth _ _ 0 F).
    + apply nth_error_None in F. cbn in F. lia.
  - rewrite (skipn_nil_nth _ _ E). reflexivity.
Qed.

(** The validator in closed form: it raises what reading thirteen digits
    meets first, and compares the control digit otherwise. *)
Lemma validate_emso_closed (emso : str) :
  validate_emso emso =
  match digits_error emso 13 with
  | Some e => Raise e
  | None => Ok (spec_control emso =? digit_at emso 12)
  end.
Proof.
  unfold validate_emso.
  change (comprehension _ (seq 0 12))
    with (comprehension (weighted_digit emso) (seq 0 12)).
  rewrite (weighted_digits emso 12 0) by lia. cbn [skipn].
  rewrite (digits_error_snoc 12 emso).
  destruct (digits_error emso 12) as [e|]; [reflexivity|].
  cbn [bind]. unfold getitem, int_of_char, isdecimal.
  destruct (nth_error emso 12) as [c|] eqn:E; [|reflexivity].
  cbn [bind]. destruct (to_decimal c) as [d|] eqn:D; [|reflexivity].
  cbn [bind]. unfold spec_control, spec_weighted_sum, sum.
  replace (digit_at emso 12) with d by (unfold digit_at; now rewrite E, D).
  cbn [seq map fold_left nth emso_factor_map].
  match goal with
  | |- Ok ((if ?a mod 11 =? 0 then _ else _) =? _) =
       Ok ((if ?b mod 11 =? 0 then _ else _) =? _) =>
      replace a with b by ring
  end.
  reflexivity.
Qed.

(** X1: the validator returns a verdict exactly on texts that begin with
    thirteen decimal digits.  On any other text it raises: [IndexError]
    when the text is shorter and all digits, [ValueError] when, reading from
    the left, a character that is no digit comes within the first
    thirteen. *)
Theorem validate_emso_outcome (emso : str) :
  ((exists verdict, validate_emso emso = Ok verdict) <->
   (13 <= List.length emso)%nat /\
   forallb isdecimal (firstn 13 emso) = true) /\
  (validate_emso emso = Raise IndexError <->
   (List.length emso < 13)%nat /\ forallb isdecimal emso = true) /\
  (validate_emso emso = Raise ValueError <->
   exists i c, (i < 13)%nat /\ nth_error emso i = Some c /\
               isdecimal c = false /\
               forallb isdecimal (firstn i emso) = true).
Proof.
  rewrite <- digits_error_none, <- digits_error_index, <- digits_error_value.
  rewrite validate_emso_closed.
  destruct (digits_error emso 13) as [[|]|]; repeat split;
    try discriminate; try reflexivity; try (intros [v H]; discriminate H);
    eauto.
Qed.

(** X2: only the first thirteen characters count; whatever follows them
    changes neither the verdict nor the exception. *)
Theorem validate_emso_ignores_rest (emso extra : str) :
  (13 <= List.length emso)%nat ->
  validate_emso (emso ++ extra) = validate_emso emso.
Proof.
  intros Hlen. rewrite !validate_emso_closed.
  assert (Hnth : forall i, (i < 13)%nat ->
            nth_error (emso ++ extra) i = nth_error emso i)
    by (intros i Hi; apply nth_error_app1; lia).
  assert (Herr : forall n s t,
            (n <= List.length s)%nat ->
            digits_error (s ++ t) n = digits_error s n).
  { induction n as [|n IH]; intros s t Hn; [reflexivity|].
    destruct s as [|c s]; [cbn in Hn; lia|].
    cbn [app digits_error]. cbn [List.length] in Hn.
    destruct (isdecimal c); [apply IH; lia | reflexivity]. }
  rewrite Herr by lia.
  unfold spec_control, spec_weighted_sum, digit_at.
  now rewrite !Hnth by lia.
Qed.

Lemma validate_emso_ignores_rest_witness :
  validate_emso (lit "0101006500006" ++ lit " in se kaj")
  = validate_emso (lit "0101006500006").
Proof.
  apply (validate_emso_ignores_rest (lit "0101006500006")). cbn. lia.
Defined.

(** *** What the checksum detects *)

Lemma validate_emso_thirteen
  (c0 c1 c2 c3 c4 c5 c6 c7 c8 c9 c10 c11 c12 : char)
  (d0 d1 d2 d3 d4 d5 d6 d7 d8 d9 d10 d11 d12 : Z) :
  to_decimal c0 = Some d0 -> to_decimal c1 = Some d1 ->
  to_decimal c2 = Some d2 -> to_decimal c3 = Some d3 ->
  to_decimal c4 = Some d4 -> to_decimal c5 = Some d5 ->
  to_decimal c6 = Some d6 -> to_decimal c7 = Some d7 ->
  to_decimal c8 = Some d8 -> to_decimal c9 = Some d9 ->
  to_decimal c10 = Some d10 -> to_decimal c11 = Some d11 ->
  to_decimal c12 = Some d12 ->
  validate_emso [c0; c1; c2; c3; c4; c5; c6; c7; c8; c9; c10; c11; c12] =
  Ok ((if (7 * d0 + 6 * d1 + 5 * d2 + 4 * d3 + 3 * d4 + 2 * d5
           + 7 * d6 + 6 * d7 + 5 * d8 + 4 * d9 + 3 * d10 + 2 * d11)
          mod 11 =? 0
       then 0
       else 11 - (7 * d0 + 6 * d1 + 5 * d2 + 4 * d3 + 3 * d4 + 2 * d5
                  + 7 * d6 + 6 * d7 + 5 * d8 + 4 * d9 + 3 * d10 + 2 * d11)
                 mod 11)
      =? d12).
Proof.
  intros E0 E1 E2 E3 E4 E5 E6 E7 E8 E9 E10 E11 E12.
  rewrite validate_emso_closed.
  cbn [digits_error]. unfold isdecimal.
  rewrite E0, E1, E2, E3, E4, E5, E6, E7, E8, E9, E10, E11, E12.
  unfold spec_control, spec_weighted_sum, digit_at. cbn [nth_error].
  now rewrite E0, E1, E2, E3, E4, E5, E6, E7, E8, E9, E10, E11, E12.
Qed.

Lemma Ok_inj {A} (a b : A) : Ok a = Ok b -> a = b.
Proof. now intros [= ->]. Qed.

(** From a valid identifier and a changed one, both in digits, to the
    arithmetic of their weighted sums. *)
Ltac checksum_arith :=
  match goal with
  | Hvalid : Ok (_ =? _) = Ok true |- Ok (_ =? _) = Ok false =>
      apply Ok_inj in Hvalid; apply Z.eqb_eq in Hvalid;
      f_equal; apply Z.eqb_neq; intros Hbad;
      repeat match goal with
        | H : context [if ?a =? 0 then _ else _] |- _ =>
            destruct (Z.eqb_spec a 0)
        end;
      Z.div_mod_to_equations; lia
  end.

Ltac thirteen_digits emso Hlen Hdig :=
  do 14 (destruct emso as [|? emso]; try discriminate Hlen);
  cbn [forallb] in Hdig; split_andb; digit_values.

(** X3: the checksum detects every single-digit error: in a valid
    identifier, putting a digit of another value at any one of the thirteen
    positions makes the validator answer false. *)
Theorem validate_emso_detects_substitution (emso : str) (i : nat)
  (c : char) (d : Z) :
  List.length emso = 13%nat -> forallb isdecimal emso = true ->
  validate_emso emso = Ok true ->
  (i < 13)%nat -> to_decimal c = Some d -> d <> digit_at emso i ->
  validate_emso (replace_at i c emso) = Ok false.
Proof.
  intros Hlen Hdig Hvalid Hi Hc Hd.
  pose proof (to_decimal_bounds c d Hc) as Bc.
  thirteen_digits emso Hlen Hdig.
  erewrite validate_emso_thirteen in Hvalid by eassumption.
  do 13 (destruct i as [|i]; [
    unfold replace_at; cbn [firstn skipn app];
    unfold digit_at in Hd; cbn [nth_error] in Hd;
    match type of Hd with
    | context [to_decimal ?x] =>
        match goal with E : to_decimal x = Some _ |- _ =>
          rewrite E in Hd
        end
    end;
    erewrite validate_emso_thirteen by eassumption;
    checksum_arith |]).
  lia.
Qed.

Lemma validate_emso_detects_substitution_witness :
  validate_emso (replace_at 4 (ascii_digit 7) (lit "0101006500006"))
  = Ok false.
Proof.
  apply (validate_emso_detects_substitution
           (lit "0101006500006") 4 (ascii_digit 7) 7);
    [ reflexivity | vm_compute; reflexivity | vm_compute; reflexivity
    | lia | vm_compute; reflexivity | vm_compute; discriminate ].
Defined.

(** X4: the checksum detects every exchange of two neighbouring digits of
    different value, the last digit and the control digit included: the
    validator answers false on the exchanged identifier. *)
Theorem validate_emso_detects_transposition (emso : str) (i : nat) :
  List.length emso = 13%nat -> forallb isdecimal emso = true ->
  validate_emso emso = Ok true ->
  (i < 12)%nat -> digit_at emso i <> digit_at emso (S i) ->
  validate_emso (swap_at i emso) = Ok false.
Proof.
  intros Hlen Hdig Hvalid Hi Hd.
  thirteen_digits emso Hlen Hdig.
  erewrite validate_emso_thirteen in Hvalid by eassumption.
  do 12 (destruct i as [|i]; [
    unfold swap_at; cbn [firstn skipn app];
    unfold digit_at in Hd; cbn [nth_error] in Hd;
    repeat match type of Hd with
      | context [to_decimal ?x] =>
          match goal with E : to_decimal x = Some _ |- _ =>
            rewrite E in Hd
          end
      end;
    erewrite validate_emso_thirteen by eassumption;
    checksum_arith |]).
  lia.
Qed.

Lemma validate_emso_detects_transposition_witness :
  validate_emso (swap_at 5 (lit "0101006500006")) = Ok false.
Proof.
  apply (validate_emso_detects_transposition (lit "0101006500006") 5);
    [ reflexivity | vm_compute; reflexivity | vm_compute; reflexivity
    | lia | vm_compute; discriminate ].
Defined.

(** *** The locator and the processor, case by case *)

Lemma no_run_iff_nil (text : str) :
  finditer text = [] <-> forall pos, word_bounded_run text pos = false.
Proof.
  split; [|apply finditer_nil].
  intros E pos. destruct (word_bounded_run text pos) eqn:W; [|reflexivity].
  assert (Hin : In (pos, candidate text pos) (finditer text))
    by now apply finditer_spec.
  now rewrite E in Hin.
Qed.

(** X5: the Identifier Locator never raises, although the validator it
    calls can: it answers with three components exactly when the text has
    no run, and with two (thirteen digits and a boolean) exactly when it
    has one. *)
Theorem find_valid_emso_answer (text : str) :
  exists answer,
    find_valid_emso text = Ok answer /\
    (List.length answer = 3%nat <->
     forall pos, word_bounded_run text pos = false) /\
    (List.length answer = 2%nat <->
     exists pos, word_bounded_run text pos = true) /\
    (List.length answer = 2%nat \/ List.length answer = 3%nat).
Proof.
  destruct (finditer text) as [|[pos m] found] eqn:E.
  - pose proof (proj1 (no_run_iff_nil text) E) as Hnone.
    exists [VNone; VBool false; VStr not_found_message].
    split; [now apply find_valid_emso_not_found|].
    repeat split; auto; try discriminate.
    intros (pos & W). now rewrite Hnone in W.
  - destruct (finditer_head _ _ _ _ E) as (W & _ & _).
    eexists. split; [apply (find_valid_emso_found _ _ _ _ E)|].
    repeat split; auto; try discriminate; eauto.
    intros Hnone. now rewrite Hnone in W.
Qed.

Section ProcessorOutcome.

Variable extract_text_from_pdf : str -> str.


End ProcessorOutcome.

Lemma basename_no_slash (p : str) : ~ In 47%N (basename p).
Proof.
  induction p as [|c p IH]; [auto|]. cbn [basename].
  destruct (existsb (char_eqb 47%N) p) eqn:X; [exact IH|].
  assert (Hp : ~ In 47%N p).
  { intros Hin. assert (existsb (char_eqb 47%N) p = true); [|congruence].
    apply existsb_exists. exists 47%N. split; [exact Hin|].
    now apply char_eqb_eq. }
  destruct (char_eqb c 47%N) eqn:C; [exact Hp|].
  intros [-> | Hin]; [|contradiction].
  assert (char_eqb 47%N 47%N = true) by now apply char_eqb_eq.
  congruence.
Qed.

Lemma basename_split (p : str) :
  exists dir, p = dir ++ basename p /\
              (dir = [] \/ exists d, dir = d ++ [47%N]).
Proof.
  induction p as [|c p (dir & E & Hdir)]; [exists []; auto|].
  cbn [basename].
  destruct (existsb (char_eqb 47%N) p) eqn:X.
  - exists (c :: dir). split; [cbn; now rewrite <- E|]. right.
    destruct Hdir as [-> | (d & ->)]; [|now exists (c :: d)].
    exfalso. apply existsb_exists in X as (x & Hin & Hx).
    apply char_eqb_eq in Hx. subst x. cbn [app] in E.
    rewrite E in Hin. now apply basename_no_slash in Hin.
  - destruct (char_eqb c 47%N) eqn:C.
    + apply char_eqb_eq in C. subst c. exists [47%N]. split; [reflexivity|].
      right. now exists [].
    + exists []. auto.
Qed.

(** X7: the file name in a record is what follows the last slash of the
    path: the path is a directory part, empty or ending in a slash, followed
    by the file name, and the file name holds no slash. *)
Theorem record_file_name (extract_text_from_pdf : str -> str)
  (pdf_path : str) (record : DocumentRecord) :
  process_pdf extract_text_from_pdf pdf_path = Ok (Some record) ->
  ~ In 47%N (fileName record) /\
  exists dir, pdf_path = dir ++ fileName record /\
              (dir = [] \/ exists d, dir = d ++ [47%N]).
Proof.
  intros P.
  destruct (process_pdf_cases extract_text_from_pdf pdf_path)
    as [[_ P'] | [(pos & m & found & _ & record' & P' & F & _) | (_ & _ & P')]];
    rewrite P' in P; try discriminate P.
  injection P as ->. rewrite F.
  split; [apply basename_no_slash | apply basename_split].
Qed.

Lemma record_file_name_witness :
  ~ In 47%N (lit "dopis.pdf") /\
  exists dir, lit "vhod/2024/dopis.pdf" = dir ++ lit "dopis.pdf" /\
              (dir = [] \/ exists d, dir = d ++ [47%N]).
Proof.
  apply (record_file_name
           (fun _ => lit "EMSO 0101006500006")
           (lit "vhod/2024/dopis.pdf")
           {| fileName := lit "dopis.pdf";
              stevilkaDokumenta := VNone;
              emso := VStr (lit "0101006500006");
              emsoIsValid := VBool true |}).
  vm_compute. reflexivity.
Defined.

(** *** Pages joined by newlines *)

(** An occurrence of a text without newline in two texts joined by one
    lies in the first or in the second of them. *)
Lemma occurs_across_newline (a b sub p : str) :
  ~ In 10%N sub ->
  occurs_after (a ++ newline ++ b) sub p ->
  occurs_after a sub p \/
  exists p', p = a ++ newline ++ p' /\ occurs_after b sub p'.
Proof.
  intros Hsub (post & E).
  apply app_eq_app in E as (l & [[Ea El] | [Ep El]]).
  - apply app_eq_app in El as (m & [[Es Em] | [El Ep]]).
    + destruct m as [|x m].
      * left. exists []. rewrite app_nil_r in Es. now rewrite Ea, Es, app_nil_r.
      * cbn in Em. injection Em as <- _. exfalso. apply Hsub.
        rewrite Es. apply in_or_app. right. now left.
    + left. exists m. now rewrite Ea, El.
  - destruct l as [|x l].
    + cbn [app] in El. destruct sub as [|y sub].
      * left. exists []. rewrite app_nil_r in Ep. now rewrite Ep, app_nil_r.
      * cbn in El. injection El as <- _. exfalso. apply Hsub. now left.
    + cbn in El. injection El as <- El. right. exists l.
      split; [exact Ep | now exists post].
Qed.

Lemma key_no_newline : ~ In 10%N key.
Proof. vm_compute. intuition discriminate. Qed.

Lemma get_stevilka_none (text : str) :
  (forall pre, ~ occurs_after text key pre) -> get_stevilka text = None.
Proof.
  intros Hnone. unfold get_stevilka.
  rewrite find_at by (pose proof (len_nonneg text); lia).
  cbn [Z.to_nat skipn]. now rewrite (find_from_none text key 0 Hnone).
Qed.

(** The value behind the leftmost label. *)
Lemma get_stevilka_at (pre line tail : str) :
  (forall pre', occurs_after (pre ++ key ++ line ++ tail) key pre' ->
                (List.length pre <= List.length pre')%nat) ->
  ~ In 10%N line ->
  tail = [] \/ hd_error tail = Some 10%N ->
  get_stevilka (pre ++ key ++ line ++ tail) = Some (strip line).
Proof.
  intros Hfirst Hnl Htail. unfold get_stevilka.
  pose proof (len_nonneg pre) as Hpre.
  pose proof (len_nonneg key) as Hkey.
  pose proof (len_nonneg line) as Hline.
  pose proof (len_nonneg tail) as Htl.
  rewrite find_at by len_lia.
  cbn [Z.to_nat skipn]. rewrite (find_from_first key pre _ 0 Hfirst).
  destruct (Z.eqb_spec (0 + len pre) (-1)); [lia|].
  replace (0 + len pre + len key) with (len (pre ++ key)) by len_lia.
  rewrite (app_assoc pre key).
  rewrite find_at by len_lia.
  rewrite skipn_len_app.
  destruct Htail as [-> | Hhd].
  - rewrite (find_from_none _ newline)
      by (rewrite app_nil_r; now apply newline_absent).
    rewrite Z.eqb_refl, slice_at by len_lia.
    rewrite skipn_len_app.
    replace (len ((pre ++ key) ++ line ++ []) - len (pre ++ key))
      with (len line) by len_lia.
    now rewrite firstn_len_app.
  - destruct tail as [|c t]; [discriminate|]. injection Hhd as ->.
    change (10%N :: t) with (newline ++ t).
    rewrite (find_from_first newline line t) by now apply newline_first.
    destruct (Z.eqb_spec (len (pre ++ key) + len line) (-1)); [len_lia|].
    rewrite slice_at by len_lia.
    rewrite skipn_len_app.
    replace (len (pre ++ key) + len line - len (pre ++ key))
      with (len line) by lia.
    now rewrite firstn_len_app.
Qed.

(** The Reference Locator on two texts joined by a newline: the value of
    the first if it has the label, that of the second otherwise. *)
Lemma get_stevilka_joined (a b : str) :
  get_stevilka (a ++ newline ++ b) =
  match get_stevilka a with
  | Some value => Some value
  | None => get_stevilka b
  end.
Proof.
  destruct (get_stevilka_cases a)
    as [Ha | (pre & line & tail & Ea & Hmin & Hnl & Htail)].
  - rewrite (get_stevilka_none a Ha).
    destruct (get_stevilka_cases b)
      as [Hb | (pre & line & tail & Eb & Hmin & Hnl & Htail)].
    + rewrite (get_stevilka_none b Hb). apply get_stevilka_none.
      intros p Hp.
      apply (occurs_across_newline _ _ _ _ key_no_newline) in Hp
        as [Hp | (p' & _ & Hp)]; [now apply (Ha p) | now apply (Hb p')].
    + rewrite Eb at 2. rewrite (get_stevilka_at pre line tail);
        [|now rewrite <- Eb | exact Hnl | exact Htail].
      rewrite Eb.
      replace (a ++ newline ++ pre ++ key ++ line ++ tail)
        with ((a ++ newline ++ pre) ++ key ++ line ++ tail)
        by now rewrite <- !app_assoc.
      apply get_stevilka_at; trivial.
      intros p Hp.
      replace ((a ++ newline ++ pre) ++ key ++ line ++ tail)
        with (a ++ newline ++ pre ++ key ++ line ++ tail) in Hp
        by now rewrite <- !app_assoc.
      rewrite <- Eb in Hp.
      apply (occurs_across_newline _ _ _ _ key_no_newline) in Hp
        as [Hp | (p' & -> & Hp)]; [now apply Ha in Hp|].
      apply Hmin in Hp. rewrite !length_app. lia.
  - rewrite Ea at 2. rewrite (get_stevilka_at pre line tail);
      [|now rewrite <- Ea | exact Hnl | exact Htail].
    rewrite Ea.
    replace ((pre ++ key ++ line ++ tail) ++ newline ++ b)
      with (pre ++ key ++ line ++ (tail ++ newline ++ b))
      by now rewrite <- !app_assoc.
    apply get_stevilka_at; trivial.
    + intros p Hp.
      replace (pre ++ key ++ line ++ (tail ++ newline ++ b))
        with ((pre ++ key ++ line ++ tail) ++ newline ++ b) in Hp
        by now rewrite <- !app_assoc.
      rewrite <- Ea in Hp.
      apply (occurs_across_newline _ _ _ _ key_no_newline) in Hp
        as [Hp | (p' & -> & Hp)]; [now apply Hmin|].
      rewrite Ea, !length_app. lia.
    + right. destruct Htail as [-> | Hhd]; [reflexivity|].
      destruct tail; [discriminate | exact Hhd].
Qed.

Lemma get_stevilka_join (pages : list str) :
  get_stevilka (join newline pages) = first_some (map get_stevilka pages).
Proof.
  induction pages as [|page pages IH]; [reflexivity|].
  destruct pages as [|page' pages].
  - cbn [join map first_some]. now destruct (get_stevilka page).
  - change (join newline (page :: page' :: pages))
      with (page ++ newline ++ join newline (page' :: pages)).
    rewrite get_stevilka_joined, IH.
    cbn [map first_some]. reflexivity.
Qed.

(** *** Extraction *)

Lemma page_texts_all (pages : list str) :
  page_texts (map Some pages) = Some (nonempty_texts pages).
Proof.
  induction pages as [|page pages IH]; [reflexivity|].
  cbn [map page_texts nonempty_texts filter]. fold (nonempty_texts pages).
  rewrite IH. now destruct page.
Qed.

Lemma extract_text_all_pages (w : World) (pdf_path : str)
  (pages : list str) :
  path_exists w pdf_path = true ->
  read_pages w pdf_path = Some (map Some pages) ->
  extract_text_from_pdf w pdf_path = join newline (nonempty_texts pages).
Proof.
  intros Hex Hread. unfold extract_text_from_pdf.
  now rewrite Hex, Hread, page_texts_all.
Qed.

Lemma first_some_nonempty (pages : list str) :
  first_some (map get_stevilka (nonempty_texts pages))
  = first_some (map get_stevilka pages).
Proof.
  induction pages as [|page pages IH]; [reflexivity|].
  destruct page as [|c page]; [exact IH|].
  cbn [nonempty_texts filter map first_some].
  fold (nonempty_texts pages).
  destruct (get_stevilka (c :: page)); [reflexivity | exact IH].
Qed.

(** X8: the reference of a document is looked up page by page: when every
    page of the file is extracted, the Reference Locator's answer on the
    extracted text is its answer on the first page that has the label; a
    value never runs over from one page into the next. *)
Theorem reference_page_by_page (w : World) (pdf_path : str)
  (pages : list str) :
  path_exists w pdf_path = true ->
  read_pages w pdf_path = Some (map Some pages) ->
  get_stevilka (extract_text_from_pdf w pdf_path)
  = first_some (map get_stevilka pages).
Proof.
  intros Hex Hread.
  rewrite (extract_text_all_pages w pdf_path pages Hex Hread).
  now rewrite get_stevilka_join, first_some_nonempty.
Qed.

Lemma forallb_eq_in {A} (f g : A -> bool) (xs : list A) :
  (forall x, In x xs -> f x = g x) -> forallb f xs = forallb g xs.
Proof.
  induction xs as [|x xs IH]; intros H; [reflexivity|].
  cbn [forallb]. rewrite (H x) by now left.
  rewrite IH; [reflexivity|]. intros y Hy. apply H. now right.
Qed.

Lemma newline_not_word : is_word 10%N = false.
Proof. vm_compute. reflexivity. Qed.

Lemma newline_not_decimal : isdecimal 10%N = false.
Proof. vm_compute. reflexivity. Qed.

Lemma run_fits (text : str) (p : nat) :
  word_bounded_run text p = true -> (p + 13 <= List.length text)%nat.
Proof.
  intros W. unfold word_bounded_run in W.
  apply andb_prop in W as [W _]. apply andb_prop in W as [D _].
  rewrite digits_at_iff in D. destruct (D 12%nat) as (c & Hc & _); [lia|].
  assert (p + 12 < List.length text)%nat
    by (apply nth_error_Some; congruence).
  lia.
Qed.

(** A position whose thirteen characters lie in the first of two texts
    joined by a newline is a run of the whole exactly when it is one of
    that text. *)
Lemma run_in_first (a b : str) (p : nat) :
  (p + 13 <= List.length a)%nat ->
  word_bounded_run (a ++ newline ++ b) p = word_bounded_run a p.
Proof.
  intros Hp. unfold word_bounded_run. f_equal; [f_equal|].
  - unfold digits_at. apply forallb_eq_in. intros i Hi.
    apply in_seq in Hi. now rewrite nth_error_app1 by lia.
  - destruct p as [|q]; [reflexivity|]. cbn [before].
    now rewrite nth_error_app1 by lia.
  - unfold after.
    destruct (Nat.eq_dec (p + 13) (List.length a)) as [E | E].
    + rewrite nth_error_app2, E, Nat.sub_diag by lia.
      cbn [newline app nth_error lacks]. rewrite newline_not_word.
      replace (nth_error a (List.length a)) with (@None char);
        [reflexivity|].
      symmetry. apply nth_error_None. lia.
    + now rewrite nth_error_app1 by lia.
Qed.

(** No run reaches over the newline that joins two texts. *)
Lemma no_run_across (a b : str) (p : nat) :
  (p <= List.length a < p + 13)%nat ->
  word_bounded_run (a ++ newline ++ b) p = false.
Proof.
  intros Hp.
  destruct (word_bounded_run (a ++ newline ++ b) p) eqn:W; [|reflexivity].
  unfold word_bounded_run in W.
  apply andb_prop in W as [W _]. apply andb_prop in W as [D _].
  rewrite digits_at_iff in D.
  destruct (D (List.length a - p)%nat) as (c & Hc & Hd); [lia|].
  replace (p + (List.length a - p))%nat with (List.length a) in Hc by lia.
  rewrite nth_error_app2, Nat.sub_diag in Hc by lia.
  injection Hc as <-. now rewrite newline_not_decimal in Hd.
Qed.

(** Behind the newline, the runs of the whole are those of the second
    text. *)
Lemma run_in_second (a b : str) (q : nat) :
  word_bounded_run (a ++ newline ++ b) (List.length a + 1 + q)
  = word_bounded_run b q.
Proof.
  rewrite app_assoc.
  replace (List.length a + 1)%nat with (List.length (a ++ newline))
    by (rewrite length_app; reflexivity).
  assert (Hnth : forall k,
            nth_error ((a ++ newline) ++ b) (List.length (a ++ newline) + k)
            = nth_error b k).
  { intros k. rewrite nth_error_app2 by lia. f_equal. lia. }
  unfold word_bounded_run. f_equal; [f_equal|].
  - unfold digits_at. apply forallb_eq_in. intros i Hi.
    now rewrite <- Nat.add_assoc, Hnth.
  - destruct q as [|q'].
    + rewrite Nat.add_0_r, before_app. unfold newline.
      rewrite prev_after_snoc.
      cbn [lacks before]. now rewrite newline_not_word.
    + rewrite Nat.add_succ_r. cbn [before]. now rewrite Hnth.
  - unfold after. now rewrite <- Nat.add_assoc, Hnth.
Qed.

Lemma candidate_in_first (a rest : str) (p : nat) :
  (p + 13 <= List.length a)%nat ->
  candidate (a ++ rest) p = candidate a p.
Proof.
  intros Hp. unfold candidate.
  rewrite skipn_app, firstn_app, length_skipn.
  replace (13 - (List.length a - p))%nat with 0%nat by lia.
  cbn [firstn]. apply app_nil_r.
Qed.

Lemma candidate_in_second (a b : str) (q : nat) :
  candidate (a ++ newline ++ b) (List.length a + 1 + q) = candidate b q.
Proof.
  unfold candidate. rewrite app_assoc, skipn_app.
  rewrite skipn_all2 by (rewrite length_app; cbn; lia).
  rewrite length_app. cbn [app List.length newline].
  f_equal. f_equal. lia.
Qed.

(** The runs of two texts joined by a newline, by position. *)
Lemma run_joined (a b : str) (p : nat) :
  word_bounded_run (a ++ newline ++ b) p = true <->
  word_bounded_run a p = true \/
  exists q, p = (List.length a + 1 + q)%nat /\ word_bounded_run b q = true.
Proof.
  split.
  - intros W.
    destruct (le_lt_dec (p + 13) (List.length a)) as [H1 | H1].
    + left. now rewrite <- (run_in_first a b p H1).
    + destruct (le_lt_dec p (List.length a)) as [H2 | H2].
      * rewrite no_run_across in W by lia. discriminate W.
      * right. exists (p - (List.length a + 1))%nat.
        split; [lia|]. rewrite <- (run_in_second a b).
        now replace (List.length a + 1 + (p - (List.length a + 1)))%nat
          with p by lia.
  - intros [W | (q & -> & W)].
    + rewrite run_in_first; [exact W | now apply run_fits].
    + now rewrite run_in_second.
Qed.

(** The Identifier Locator on two texts joined by a newline: its answer on
    the first if that has a run, its answer on the second otherwise. *)
Lemma find_valid_emso_joined (a b : str) :
  find_valid_emso (a ++ newline ++ b) =
  match finditer a with
  | [] => find_valid_emso b
  | _ :: _ => find_valid_emso a
  end.
Proof.
  destruct (finditer a) as [|[p m] found] eqn:Ea.
  - pose proof (proj1 (no_run_iff_nil a) Ea) as Ha.
    destruct (finditer b) as [|[q m] found] eqn:Eb.
    + pose proof (proj1 (no_run_iff_nil b) Eb) as Hb.
      rewrite (find_valid_emso_not_found b Hb).
      apply find_valid_emso_not_found. intros p.
      destruct (word_bounded_run (a ++ newline ++ b) p) eqn:W;
        [|reflexivity].
      apply run_joined in W as [W | (q & _ & W)];
        [now rewrite Ha in W | now rewrite Hb in W].
    + destruct (finditer_head _ _ _ _ Eb) as (W & -> & Hleft).
      rewrite (find_valid_emso_found _ _ _ _ Eb).
      destruct (finditer_leftmost (a ++ newline ++ b)
                  (List.length a + 1 + q)) as (found' & E).
      * now rewrite run_in_second.
      * intros r Hr.
        destruct (word_bounded_run (a ++ newline ++ b) r) eqn:Wr;
          [|reflexivity].
        apply run_joined in Wr as [Wr | (q' & -> & Wr)];
          [now rewrite Ha in Wr|].
        rewrite Hleft in Wr by lia. discriminate Wr.
      * rewrite (find_valid_emso_found _ _ _ _ E).
        now rewrite candidate_in_second.
  - destruct (finditer_head _ _ _ _ Ea) as (W & -> & Hleft).
    pose proof (run_fits a p W) as Hfit.
    rewrite (find_valid_emso_found _ _ _ _ Ea).
    destruct (finditer_leftmost (a ++ newline ++ b) p) as (found' & E).
    + now rewrite run_in_first.
    + intros r Hr. rewrite run_in_first by lia. now apply Hleft.
    + rewrite (find_valid_emso_found _ _ _ _ E).
      now rewrite candidate_in_first.
Qed.

Lemma find_valid_emso_join (pages : list str) :
  find_valid_emso (join newline pages) = first_found pages.
Proof.
  induction pages as [|page pages IH]; [reflexivity|].
  destruct pages as [|page' pages].
  - cbn [join first_found].
    destruct (finditer page) eqn:E; [|reflexivity].
    unfold find_valid_emso, findall. now rewrite E.
  - change (join newline (page :: page' :: pages))
      with (page ++ newline ++ join newline (page' :: pages)).
    rewrite find_valid_emso_joined, IH. reflexivity.
Qed.

Lemma first_found_nonempty (pages : list str) :
  first_found (nonempty_texts pages) = first_found pages.
Proof.
  induction pages as [|page pages IH]; [reflexivity|].
  destruct page as [|c page]; [exact IH|].
  cbn [nonempty_texts filter first_found]. fold (nonempty_texts pages).
  now rewrite IH.
Qed.

(** X9: the identifier of a document is looked up page by page: when
    every page of the file is extracted, the Identifier Locator's answer on
    the extracted text is its answer on the first page that has a run, and
    "not found" when no page has one; no run is made of digits from two
    pages. *)
Theorem identifier_page_by_page (w : World) (pdf_path : str)
  (pages : list str) :
  path_exists w pdf_path = true ->
  read_pages w pdf_path = Some (map Some pages) ->
  find_valid_emso (extract_text_from_pdf w pdf_path) = first_found pages.
Proof.
  intros Hex Hread.
  rewrite (extract_text_all_pages w pdf_path pages Hex Hread).
  now rewrite find_valid_emso_join, first_found_nonempty.
Qed.

Lemma reference_page_by_page_witness :
  get_stevilka (extract_text_from_pdf sample_world (lit "vhod/a.pdf"))
  = first_some (map get_stevilka sample_pages_a).
Proof.
  apply (reference_page_by_page sample_world (lit "vhod/a.pdf")
           sample_pages_a); reflexivity.
Defined.

Lemma identifier_page_by_page_witness :
  find_valid_emso (extract_text_from_pdf sample_world (lit "vhod/a.pdf"))
  = first_found sample_pages_a.
Proof.
  apply (identifier_page_by_page sample_world (lit "vhod/a.pdf")
           sample_pages_a); reflexivity.
Defined.

Lemma page_texts_none (pages : list (option str)) :
  page_texts pages = None <-> In None pages.
Proof.
  induction pages as [|[text|] pages IH]; cbn [page_texts In].
  - split; [discriminate | contradiction].
  - destruct (page_texts pages) as [texts|].
    + split; [discriminate|]. intros [H | H]; [discriminate|].
      now apply IH in H.
    + split; [right; now apply IH | reflexivity].
  - split; [now left | reflexivity].
Qed.

Lemma page_texts_some (pages : list (option str)) (texts : list str) :
  page_texts pages = Some texts ->
  forall t, In t texts <-> t <> [] /\ In (Some t) pages.
Proof.
  revert texts. induction pages as [|[text|] pages IH]; intros texts;
    cbn [page_texts In].
  - intros [= <-] t. cbn. tauto.
  - destruct (page_texts pages) as [texts'|]; [|discriminate].
    intros [= <-] t. specialize (IH texts' eq_refl t).
    destruct text as [|c text]; cbn [In]; rewrite IH; split.
    + intros [H1 H2]. auto.
    + intros [H1 [[= <-] | H2]]; [congruence | auto].
    + intros [<- | [H1 H2]]; [split; [discriminate | now left] | auto].
    + intros [H1 [[= <-] | H2]]; auto.
  - discriminate.
Qed.

Lemma join_nil (sep : str) (texts : list str) :
  (forall t, In t texts -> t <> []) -> join sep texts = [] -> texts = [].
Proof.
  destruct texts as [|t texts]; [reflexivity|]. intros Hne E.
  exfalso. apply (Hne t); [now left|].
  cbn [join] in E. destruct texts; [exact E|].
  now apply app_eq_nil in E as [E _].
Qed.

(** X10: extraction yields the empty text exactly when the file is
    missing, or cannot be read, or the extraction of one of its pages
    raises, or every page comes out empty; a single page with text is
    enough for a text that is not empty. *)
Theorem extract_text_empty_iff (w : World) (pdf_path : str) :
  extract_text_from_pdf w pdf_path = [] <->
  path_exists w pdf_path = false \/
  read_pages w pdf_path = None \/
  exists pages,
    read_pages w pdf_path = Some pages /\
    (In None pages \/ forall t, In (Some t) pages -> t = []).
Proof.
  unfold extract_text_from_pdf.
  destruct (path_exists w pdf_path); cbn [negb]; [|tauto].
  destruct (read_pages w pdf_path) as [pages|]; [|tauto].
  destruct (page_texts pages) as [texts|] eqn:P.
  - pose proof (page_texts_some pages texts P) as Hin. split.
    + intros E. right. right. exists pages. split; [reflexivity|]. right.
      apply join_nil in E; [|intros t Ht; now apply Hin in Ht].
      subst texts. intros t Ht.
      destruct t as [|c t]; [reflexivity|].
      exfalso. apply (proj2 (Hin (c :: t))). split; [discriminate | exact Ht].
    + intros [H | [H | (pages' & [= <-] & [H | H])]]; try discriminate.
      * apply page_texts_none in H. congruence.
      * destruct texts as [|t texts]; [reflexivity|]. exfalso.
        destruct (proj1 (Hin t) ltac:(now left)) as [Hne Ht].
        now apply H in Ht.
  - split; [|reflexivity]. intros _. right. right. exists pages.
    split; [reflexivity|]. left. now apply page_texts_none.
Qed.

(** *** The batch driver *)

Lemma main_selected (w : World) (input_path output : str) :
  main w input_path output =
  match selected_files w input_path with
  | None => Returned Halted
  | Some files =>
      match process_files w files with
      | Raise e => Uncaught (FromDocument e)
      | Ok results =>
          match write_output w output results with
          | Some e => Uncaught (FromOutput e)
          | None => Returned (Dumped output results)
          end
      end
  end.
Proof.
  unfold main, selected_files.
  destruct (negb (path_exists w input_path)); [reflexivity|].
  destruct (path_isdir w input_path); [reflexivity|].
  now destruct (path_isfile w input_path
                && endswith (lower w input_path) (lit ".pdf")).
Qed.

(** A document either passes, and then adds its record if it has one, or
    stops the loop. *)
Lemma process_files_cases (w : World) (files : list str) :
  ((forall f, In f files ->
      exists data, process_pdf (extract_text_from_pdf w) f = Ok data) /\
   process_files w files = Ok (records_of w files)) \/
  (exists f, In f files /\
             process_pdf (extract_text_from_pdf w) f = Raise ValueError /\
             process_files w files = Raise ValueError).
Proof.
  induction files as [|file files IH].
  - left. split; [contradiction | reflexivity].
  - cbn [process_files records_of flat_map]. fold (records_of w files).
    destruct (process_pdf_cases (extract_text_from_pdf w) file)
      as [[_ P] | [(pos & m & found & _ & record & P & _) | (_ & _ & P)]];
      rewrite P; cbn [bind].
    + destruct IH as [[Hall E] | (f & Hin & Pf & E)]; rewrite E; cbn [bind].
      * left. split; [|reflexivity].
        intros f [<- | Hin]; [eauto | now apply Hall].
      * right. exists f. repeat split; trivial. now right.
    + destruct IH as [[Hall E] | (f & Hin & Pf & E)]; rewrite E; cbn [bind].
      * left. split; [|reflexivity].
        intros f [<- | Hin]; [eauto | now apply Hall].
      * right. exists f. repeat split; trivial. now right.
    + right. exists file. repeat split; trivial. now left.
Qed.





(** Every document has a run, and still the run of [main] raises: the
    output path names a directory that does not exist. *)
Lemma main_output_failure :
  main sample_world (lit "vhod/a.pdf") (lit "izhod/output.json")
  = Uncaught (FromOutput FileNotFoundError).
Proof. vm_compute. reflexivity. Qed.



Lemma process_pdf_record (extract_text_from_pdf : str -> str)
  (pdf_path : str) (record : DocumentRecord) :
  process_pdf extract_text_from_pdf pdf_path = Ok (Some record) ->
  exists pos,
    word_bounded_run (extract_text_from_pdf pdf_path) pos = true /\
    record =
    {| fileName := basename pdf_path;
       stevilkaDokumenta :=
         of_option (get_stevilka (extract_text_from_pdf pdf_path));
       emso := VStr (candidate (extract_text_from_pdf pdf_path) pos);
       emsoIsValid :=
         VBool
           (spec_control (candidate (extract_text_from_pdf pdf_path) pos)
            =? digit_at (candidate (extract_text_from_pdf pdf_path) pos)
                 12) |}.
Proof.
  intros P.
  destruct (finditer (extract_text_from_pdf pdf_path))
    as [|[pos m] found] eqn:E.
  - destruct (process_pdf_cases extract_text_from_pdf pdf_path)
      as [[_ P'] | [(pos & m & found & E' & _) | (_ & _ & P')]];
      congruence.
  - rewrite (process_pdf_found _ _ _ _ _ E) in P.
    destruct (finditer_head _ _ _ _ E) as (W & -> & _).
    exists pos. split; [exact W|]. now injection P as <-.
Qed.

(** The records the loop over the files ends with, whether or not the
    output can then be written: each comes from one of the files and has
    an identifier. *)
Lemma processed_records_have_identifier (w : World) (files : list str)
  (results : list DocumentRecord) (record : DocumentRecord) :
  process_files w files = Ok results ->
  In record results ->
  exists f m verdict,
    In f files /\
    fileName record = basename f /\
    stevilkaDokumenta record
    = of_option (get_stevilka (extract_text_from_pdf w f)) /\
    emso record = VStr m /\
    List.length m = 13%nat /\ forallb isdecimal m = true /\
    In m (findall (extract_text_from_pdf w f)) /\
    validate_emso m = Ok verdict /\
    emsoIsValid record = VBool verdict.
Proof.
  destruct (process_files_cases w files)
    as [[_ E] | (f & _ & _ & E)]; rewrite E; [|discriminate].
  intros [= <-] Hin. unfold records_of in Hin.
  apply in_flat_map in Hin as (f & Hf & Hin).
  destruct (process_pdf (extract_text_from_pdf w) f)
    as [[record'|]|] eqn:P; try contradiction.
  destruct Hin as [<- | []].
  apply process_pdf_record in P as (pos & W & ->).
  destruct (candidate_digits _ _ W) as [Hlen Hdig].
  exists f, (candidate (extract_text_from_pdf w f) pos).
  eexists. repeat split; trivial.
  - apply findall_in. now exists pos.
  - now apply validate_emso_candidate.
Qed.

(** X13: every record a run of [main] dumps has an identifier: its [emso]
    is a string of thirteen decimal digits found in the text of one of the
    files, [emsoIsValid] is the validator's verdict on it, and the other
    two fields are that file's name and reference.  A record with a null
    identifier is never written. *)
Theorem dumped_records_have_identifier (w : World)
  (input_path output out : str) (results : list DocumentRecord)
  (record : DocumentRecord) :
  main w input_path output = Returned (Dumped out results) ->
  In record results ->
  exists files f m verdict,
    selected_files w input_path = Some files /\ In f files /\
    fileName record = basename f /\
    stevilkaDokumenta record
    = of_option (get_stevilka (extract_text_from_pdf w f)) /\
    emso record = VStr m /\
    List.length m = 13%nat /\ forallb isdecimal m = true /\
    In m (findall (extract_text_from_pdf w f)) /\
    validate_emso m = Ok verdict /\
    emsoIsValid record = VBool verdict.
Proof.
  rewrite main_selected.
  destruct (selected_files w input_path) as [files|]; [|discriminate].
  destruct (process_files w files) as [results'|] eqn:E; [|discriminate].
  destruct (write_output w output results'); [discriminate|].
  intros [= _ <-] Hin.
  destruct (processed_records_have_identifier w files _ record E Hin)
    as (f & m & verdict & H).
  now exists files, f, m, verdict.
Qed.

Lemma dumped_records_have_identifier_witness :
  exists files f m verdict,
    selected_files sample_world (lit "vhod/a.pdf") = Some files /\
    In f files /\
    fileName
      {| fileName := lit "a.pdf";
         stevilkaDokumenta := VStr (lit "AB-123/2024");
         emso := VStr (lit "0101006500006");
         emsoIsValid := VBool true |}
    = basename f /\
    stevilkaDokumenta
      {| fileName := lit "a.pdf";
         stevilkaDokumenta := VStr (lit "AB-123/2024");
         emso := VStr (lit "0101006500006");
         emsoIsValid := VBool true |}
    = of_option (get_stevilka (extract_text_from_pdf sample_world f)) /\
    emso
      {| fileName := lit "a.pdf";
         stevilkaDokumenta := VStr (lit "AB-123/2024");
         emso := VStr (lit "0101006500006");
         emsoIsValid := VBool true |}
    = VStr m /\
    List.length m = 13%nat /\ forallb isdecimal m = true /\
    In m (findall (extract_text_from_pdf sample_world f)) /\
    validate_emso m = Ok verdict /\
    emsoIsValid
      {| fileName := lit "a.pdf";
         stevilkaDokumenta := VStr (lit "AB-123/2024");
         emso := VStr (lit "0101006500006");
         emsoIsValid := VBool true |}
    = VBool verdict.
Proof.
  apply (dumped_records_have_identifier sample_world
           (lit "vhod/a.pdf") (lit "output.json") (lit "output.json")
           [{| fileName := lit "a.pdf";
               stevilkaDokumenta := VStr (lit "AB-123/2024");
               emso := VStr (lit "0101006500006");
               emsoIsValid := VBool true |}]).
  - vm_compute. reflexivity.
  - now left.
Defined.
